(** * workbox-routing: the [Router] dispatcher

    A shallow embedding of [packages/workbox-routing/src/lib/router.js]
    and the properties of its routing table and of [handleRequest].

    The router is a JavaScript object with three mutable slots
    ([_routes], [defaultHandler], [catchHandler]).  Its methods are
    embedded as computations in a small state-and-exception monad over a
    [World] that holds the router and a chronological trace of the calls
    the router makes to its collaborators (route predicates, handlers,
    the log helper).

    Collaborators are taken at their documented interface:
    - a route's [match] is a function of [{url, event}] returning any
      JavaScript value;
    - a handler's [handle] returns a promise, represented by the way it
      eventually settles;
    - neither re-enters the router while it runs.

    The callback that [handleRequest] attaches with [catch] runs after
    [handleRequest] has returned, when the rejection is processed, and
    reads the catch handler slot then: what [handleRequest] returns is
    kept apart from how it settles, which depends on the router at that
    later time. *)

From Stdlib Require Import String ZArith List.
From stdpp Require Import base option list gmap strings.

Open Scope string_scope.
Open Scope list_scope.

(** ** JavaScript values returned by route predicates *)

(** What [v.constructor] evaluates to: the global [Object] or anything
    else. *)
Inductive Ctor := CtorObject | CtorOther.

(** [JObject c ks]: an object whose [constructor] property is [c] and
    whose own enumerable string-keyed properties are [ks] (what
    [Object.keys] enumerates). *)
#[local] Unset Elimination Schemes.
Inductive JsValue :=
| JUndefined
| JNull
| JBool (b : bool)
| JNumber (n : Z)
| JNaN
| JString (s : string)
| JArray (elems : list JsValue)
| JObject (ctor : Ctor) (props : list (string * JsValue)).
#[local] Set Elimination Schemes.

(** ToBoolean, the test behind [if (matchResult)]. *)
Definition truthy (v : JsValue) : bool :=
  match v with
  | JUndefined | JNull | JNaN => false
  | JBool b => b
  | JNumber n => negb (n =? 0)%Z
  | JString s => match s with EmptyString => false | _ => true end
  | JArray _ | JObject _ _ => true
  end.

Definition Array_isArray (v : JsValue) : bool :=
  match v with JArray _ => true | _ => false end.

(** [v.length] for an array. *)
Definition array_length (v : JsValue) : Z :=
  match v with JArray elems => Z.of_nat (length elems) | _ => -1 end.

(** [v.constructor === Object]; primitives and arrays answer with their
    own wrapper constructors. *)
Definition constructor_is_Object (v : JsValue) : bool :=
  match v with JObject CtorObject _ => true | _ => false end.

Definition Object_keys (v : JsValue) : list string :=
  match v with JObject _ props => fst <$> props | _ => [] end.

(** ** Requests, handlers, routes *)

(** [protocol] is the scheme with its trailing colon, as [URL.protocol]
    reports it. *)
Record URL := { protocol : string; href : string }.

(** [request_url] is what [new URL(event.request.url)] yields: the URL
    of a fetch request is always an absolute URL. *)
Record Request := { request_url : URL; request_method : string }.

Record FetchEvent := { request : Request }.

Record Response := { status : Z; body : string }.

(** A promise, by its eventual settlement. *)
Inductive Promise :=
| Fulfilled (response : Response)
| Rejected (error : JsValue)
| Pending.

(** [p.catch(onRejected)] *)
Definition Promise_catch (p : Promise) (onRejected : JsValue -> Promise)
  : Promise :=
  match p with
  | Rejected error => onRejected error
  | _ => p
  end.

(** The argument of [handle]: [{url, event, params}] on dispatch,
    [{url, event, error}] on recovery. *)
Inductive HandlerContext :=
| RouteContext (url : URL) (event : FetchEvent) (params : JsValue)
| CatchContext (url : URL) (event : FetchEvent) (error : JsValue).

Record Handler := { handle : HandlerContext -> Promise }.

Record MatchContext := { match_url : URL; match_event : FetchEvent }.

(** [ref] stands for the identity of the route object: [indexOf]
    compares routes with [===]. *)
Record Route := {
  ref : nat;
  method : string;
  route_match : MatchContext -> JsValue;
  handler : Handler
}.

(** ** The router and its world *)

Record Router := {
  _routes : gmap string (list Route);
  defaultHandler : option Handler;
  catchHandler : option Handler
}.

(** [constructor()]: no registered routes; the two handler slots are not
    assigned and read as [undefined]. *)
Definition new_Router : Router :=
  {| _routes := ∅; defaultHandler := None; catchHandler := None |}.

(** What [handleRequest] returns: the promise of the selected handler
    as it is, or [p.catch((error) => this.catchHandler.handle({url,
    event, error}))]. *)
Inductive ResponsePromise :=
| Direct (p : Promise)
| Caught (p : Promise) (url : URL) (event : FetchEvent).

(** The [TypeError] instance thrown by a property read on [undefined]:
    its constructor is not [Object] and it has no own enumerable
    property. *)
Definition thrown_TypeError : JsValue := JObject CtorOther [].

(** The callback [(error) => this.catchHandler.handle({url, event,
    error})], run while the router is in state [later]: the slot is read
    when the callback runs, and a callback that throws rejects the
    promise of [catch]. *)
Definition catch_callback (later : Router) (url : URL) (event : FetchEvent)
  (error : JsValue) : Promise :=
  match catchHandler later with
  | Some c => handle c (CatchContext url event error)
  | None => Rejected thrown_TypeError
  end.

(** How the returned promise settles, when the router is in state
    [later] at the time a rejection of the handler's promise is
    processed. *)
Definition settle (later : Router) (rp : ResponsePromise) : Promise :=
  match rp with
  | Direct p => p
  | Caught p url event => Promise_catch p (catch_callback later url event)
  end.

Inductive Message :=
| MsgNotHttp
| MsgFoundRoute
| MsgNoRoutesForMethod (m : string)
| MsgNotPreviouslyRegistered.

Inductive Event :=
| LogInfo (message : Message) (route : option Route) (req : Request)
| LogError (message : Message) (route : Route)
| CallMatch (route : Route) (ctx : MatchContext)
| CallHandle (h : Handler) (ctx : HandlerContext).

Record World := { router : Router; trace : list Event }.

Inductive Exn :=
| TypeMismatch (parameter : string)
| TypeError (message : string).

Inductive Completion (A : Type) :=
| Normal (a : A)
| Throw (e : Exn).
Arguments Normal {A} a.
Arguments Throw {A} e.

(** ** The monad of router methods *)

Definition M (A : Type) : Type := World -> Completion A * World.

#[global] Instance M_ret : MRet M := fun A a w => (Normal a, w).

#[global] Instance M_bind : MBind M := fun A B f c w =>
  match c w with
  | (Normal a, w') => f a w'
  | (Throw e, w') => (Throw e, w')
  end.

Definition throw {A} (e : Exn) : M A := fun w => (Throw e, w).

Definition this : M Router := fun w => (Normal (router w), w).

(** The world after the router made the calls [evs]. *)
Definition extend (w : World) (evs : list Event) : World :=
  {| router := router w; trace := trace w ++ evs |}.

Definition emit (ev : Event) : M unit := fun w => (Normal tt, extend w [ev]).

(** Assignment to [this._routes] contents (the [Map] is mutated in
    place). *)
Definition set_routes (tbl : gmap string (list Route)) : M unit := fun w =>
  (Normal tt,
   {| router := {| _routes := tbl;
                   defaultHandler := defaultHandler (router w);
                   catchHandler := catchHandler (router w) |};
      trace := trace w |}).

Definition exec {A} (c : M A) (w : World) : World := snd (c w).
Definition result {A} (c : M A) (w : World) : Completion A := fst (c w).

(** [for (let x of xs) body] *)
Fixpoint for_of {A} (xs : list A) (body : A -> M unit) : M unit :=
  match xs with
  | [] => mret tt
  | x :: rest => body x ;; for_of rest body
  end.

(** ** Collaborators outside the file *)

(** [logHelper.log] and [logHelper.error] only report. *)
Definition logHelper_log (message : Message) (route : option Route)
  (req : Request) : M unit := emit (LogInfo message route req).

Definition logHelper_error (message : Message) (route : Route) : M unit :=
  emit (LogError message route).

(** Arguments as a caller may pass them: a [Route] instance or some
    other value; a [FetchEvent] or some other value. *)
Inductive RouteArg := ARoute (route : Route) | ANotRoute (v : JsValue).
Inductive EventArg := AFetchEvent (event : FetchEvent) | ANotFetchEvent (v : JsValue).

(** Modelled from the spec: [isInstance] of [lib/assert] is not part of
    the sources at hand.  A value that is not of the expected class
    fails the call at once with a TypeMismatch error. *)
Definition isInstance_Route (name : string) (a : RouteArg) : M Route :=
  match a with
  | ARoute route => mret route
  | ANotRoute _ => throw (TypeMismatch name)
  end.

Definition isInstance_FetchEvent (name : string) (a : EventArg) : M FetchEvent :=
  match a with
  | AFetchEvent event => mret event
  | ANotFetchEvent _ => throw (TypeMismatch name)
  end.

(** Modelled from the spec: [isArrayOfClass] of [lib/assert] is not part
    of the sources at hand.  The call fails with a TypeMismatch error
    if any element is not route-shaped; the check reads its argument
    and changes nothing. *)
Fixpoint all_routes (args : list RouteArg) : option (list Route) :=
  match args with
  | [] => Some []
  | ARoute route :: rest => cons route <$> all_routes rest
  | ANotRoute _ :: _ => None
  end.

Definition isArrayOfClass_Route (name : string) (args : list RouteArg)
  : M (list Route) :=
  match all_routes args with
  | Some routes => mret routes
  | None => throw (TypeMismatch name)
  end.

(** Calls out of the router, recorded in the trace. *)
Definition call_match (route : Route) (ctx : MatchContext) : M JsValue :=
  emit (CallMatch route ctx);; mret (route_match route ctx).

Definition call_handle (h : Handler) (ctx : HandlerContext) : M Promise :=
  emit (CallHandle h ctx);; mret (handle h ctx).

(** ** [Array.prototype] operations on a bucket *)

(** [l.indexOf(x)], with [===] on route objects. *)
Fixpoint indexOf_from (i : Z) (x : Route) (l : list Route) : Z :=
  match l with
  | [] => (-1)%Z
  | y :: rest =>
      if Nat.eqb (ref y) (ref x) then i else indexOf_from (i + 1)%Z x rest
  end.

Definition indexOf (x : Route) (l : list Route) : Z := indexOf_from 0 x l.

(** [l.splice(start, deleteCount)] for a start index that is not
    negative; the result is the array left behind. *)
Definition splice (l : list Route) (start deleteCount : Z) : list Route :=
  take (Z.to_nat start) l ++ drop (Z.to_nat start + Z.to_nat deleteCount) l.

(** ** Router methods *)

(** The loop of [_findHandlerAndParams]: the first route whose match
    result is truthy ends the search. *)
Fixpoint findHandlerAndParams_loop (routes : list Route)
  (event : FetchEvent) (url : URL) : M (option Handler * JsValue) :=
  match routes with
  | [] => mret (None, JUndefined)
  | route :: rest =>
      matchResult ← call_match route {| match_url := url; match_event := event |};
      if truthy matchResult then
        logHelper_log MsgFoundRoute (Some route) (request event);;
        let matchResult :=
          if Array_isArray matchResult && (array_length matchResult =? 0)%Z
          then JUndefined
          else if constructor_is_Object matchResult
                  && (length (Object_keys matchResult) =? 0)%nat
          then JUndefined
          else matchResult in
        mret (Some (handler route), matchResult)
      else findHandlerAndParams_loop rest event url
  end.

Definition _findHandlerAndParams (event : FetchEvent) (url : URL)
  : M (option Handler * JsValue) :=
  self ← this;
  let routes := default [] (_routes self !! request_method (request event)) in
  findHandlerAndParams_loop routes event url.

(** Whether [catch] is attached is decided by the catch slot at the time
    of the call; the callback itself is not run here (see [settle]). *)
Definition handleRequest (arg : EventArg) : M (option ResponsePromise) :=
  event ← isInstance_FetchEvent "event" arg;
  let url := request_url (request event) in
  if negb (String.prefix "http" (protocol url)) then
    logHelper_log MsgNotHttp None (request event);;
    mret None
  else
    found ← _findHandlerAndParams event url;
    self ← this;
    let params := snd found in
    let handler :=
      if negb (bool_decide (is_Some (fst found)))
         && bool_decide (is_Some (defaultHandler self))
      then defaultHandler self
      else fst found in
    match handler with
    | Some h =>
        responsePromise ← call_handle h (RouteContext url event params);
        if bool_decide (is_Some (catchHandler self))
        then mret (Some (Caught responsePromise url event))
        else mret (Some (Direct responsePromise))
    | None => mret None
    end.

(** The body of the loop of [registerRoutes]. *)
Definition registerRoutes_body (route : Route) : M unit :=
  self ← this;
  (if negb (bool_decide (is_Some (_routes self !! method route)))
   then set_routes (<[method route := []]> (_routes self))
   else mret tt);;
  (* Give precedence to the most recent route by listing it first. *)
  self ← this;
  match _routes self !! method route with
  | Some bucket =>
      set_routes (<[method route := route :: bucket]> (_routes self))
  | None => throw (TypeError "unshift of undefined")
  end.

Definition registerRoutes (args : list RouteArg) : M unit :=
  routes ← isArrayOfClass_Route "routes" args;
  for_of routes registerRoutes_body.

Definition registerRoute (arg : RouteArg) : M unit :=
  _ ← isInstance_Route "route" arg;
  registerRoutes [arg].

(** The body of the loop of [unregisterRoutes]. *)
Definition unregisterRoutes_body (route : Route) : M unit :=
  self ← this;
  (if negb (bool_decide (is_Some (_routes self !! method route)))
   then logHelper_error (MsgNoRoutesForMethod (method route)) route
   else mret tt);;
  self ← this;
  match _routes self !! method route with
  | None => throw (TypeError "indexOf of undefined")
  | Some bucket =>
      let routeIndex := indexOf route bucket in
      if (routeIndex >? -1)%Z then
        set_routes (<[method route := splice bucket routeIndex 1]> (_routes self))
      else
        logHelper_error MsgNotPreviouslyRegistered route
  end.

Definition unregisterRoutes (args : list RouteArg) : M unit :=
  routes ← isArrayOfClass_Route "routes" args;
  for_of routes unregisterRoutes_body.

Definition unregisterRoute (arg : RouteArg) : M unit :=
  _ ← isInstance_Route "route" arg;
  unregisterRoutes [arg].

(** ** Handler slots and the fetch listener *)

(** Assignment to [this.defaultHandler] and to [this.catchHandler]. *)
Definition set_defaultHandler (h : option Handler) : M unit := fun w =>
  (Normal tt,
   {| router := {| _routes := _routes (router w);
                   defaultHandler := h;
                   catchHandler := catchHandler (router w) |};
      trace := trace w |}).

Definition set_catchHandler (h : option Handler) : M unit := fun w =>
  (Normal tt,
   {| router := {| _routes := _routes (router w);
                   defaultHandler := defaultHandler (router w);
                   catchHandler := h |};
      trace := trace w |}).

(** A call of a helper that reads and writes nothing of the router. *)
Definition lift {A} (c : Completion A) : M A := fun w => (c, w).

(** [normalizeHandler] of [./normalize-handler] is not part of the
    sources at hand; the setters take it as a parameter: a function of
    the argument that either fails or yields what is stored in the slot,
    a handler or a value that reads as no handler. *)
Definition setDefaultHandler {HandlerArg : Type}
  (normalizeHandler : HandlerArg -> Completion (option Handler))
  (handler : HandlerArg) : M unit :=
  h ← lift (normalizeHandler handler);
  set_defaultHandler h.

Definition setCatchHandler {HandlerArg : Type}
  (normalizeHandler : HandlerArg -> Completion (option Handler))
  (handler : HandlerArg) : M unit :=
  h ← lift (normalizeHandler handler);
  set_catchHandler h.

(** The service worker around the router: the router's world and the
    promises handed to [event.respondWith], oldest first. *)
Record Host := {
  host_world : World;
  responses : list (FetchEvent * ResponsePromise)
}.

(** The callback that [addFetchListener] registers for [fetch] events. *)
Definition addFetchListener_callback (event : FetchEvent) (h : Host)
  : Completion unit * Host :=
  match handleRequest (AFetchEvent event) (host_world h) with
  | (Normal responsePromise, w) =>
      match responsePromise with
      | Some p =>
          (Normal tt,
           {| host_world := w; responses := responses h ++ [(event, p)] |})
      | None => (Normal tt, {| host_world := w; responses := responses h |})
      end
  | (Throw e, w) => (Throw e, {| host_world := w; responses := responses h |})
  end.

(** ** Specification vocabulary *)

(** The routes consulted for method [m], in the order they are tried. *)
Definition bucket (w : World) (m : string) : list Route :=
  default [] (_routes (router w) !! m).

Definition context_of (event : FetchEvent) : MatchContext :=
  {| match_url := request_url (request event); match_event := event |}.

(** The route accepts the event: its match result passes the loop's test. *)
Definition matches (event : FetchEvent) (route : Route) : Prop :=
  truthy (route_match route (context_of event)) = true.

Definition rejects (event : FetchEvent) (route : Route) : Prop :=
  truthy (route_match route (context_of event)) = false.

Definition is_http (event : FetchEvent) : Prop :=
  String.prefix "http" (protocol (request_url (request event))) = true.

(** The value handed to the handler as [params] for the match result
    [v]: an empty array and an empty plain object count as no parameters. *)
Definition params_of (v : JsValue) : JsValue :=
  match v with
  | JArray [] => JUndefined
  | JObject CtorObject [] => JUndefined
  | _ => v
  end.

(** What [handleRequest] returns for the handler's promise [p], given
    the catch slot at the time of the call. *)
Definition attached (c : option Handler) (event : FetchEvent) (p : Promise)
  : ResponsePromise :=
  match c with
  | Some _ => Caught p (request_url (request event)) event
  | None => Direct p
  end.

(** The settlement of what [handleRequest] returns for the handler's
    promise [p], when the catch slot holds [c] both at the call and when
    a rejection is processed. *)
Definition guarded (c : option Handler) (event : FetchEvent) (p : Promise)
  : Promise :=
  match c with
  | Some c =>
      Promise_catch p (fun error =>
        handle c (CatchContext (request_url (request event)) event error))
  | None => p
  end.

Definition match_calls (event : FetchEvent) (routes : list Route) : list Event :=
  (fun r => CallMatch r (context_of event)) <$> routes.

(** Which handler [handleRequest] settles on for [event] in world [w],
    with which parameters, after which calls: the first route of the
    method's bucket that accepts the event, else the default handler. *)
Inductive Selects (w : World) (event : FetchEvent)
  : Handler -> JsValue -> list Event -> Prop :=
| Selects_route pre r post :
    bucket w (request_method (request event)) = pre ++ r :: post ->
    Forall (rejects event) pre ->
    matches event r ->
    Selects w event (handler r)
      (params_of (route_match r (context_of event)))
      (match_calls event pre ++
       [CallMatch r (context_of event);
        LogInfo MsgFoundRoute (Some r) (request event)])
| Selects_default d :
    Forall (rejects event) (bucket w (request_method (request event))) ->
    defaultHandler (router w) = Some d ->
    Selects w event d JUndefined
      (match_calls event (bucket w (request_method (request event)))).

(** The handler calls recorded in a trace. *)
Definition handle_calls (t : list Event) : list (Handler * HandlerContext) :=
  omap (fun ev => match ev with CallHandle h ctx => Some (h, ctx) | _ => None end) t.

Definition match_calls_in (t : list Event) : list (Route * MatchContext) :=
  omap (fun ev => match ev with CallMatch r ctx => Some (r, ctx) | _ => None end) t.

(** The table with [route] put at the front of its method's bucket. *)
Definition unshifted (route : Route) (tbl : gmap string (list Route))
  : gmap string (list Route) :=
  <[method route := route :: default [] (tbl !! method route)]> tbl.

Definition with_routes (w : World) (tbl : gmap string (list Route)) : World :=
  {| router := {| _routes := tbl;
                  defaultHandler := defaultHandler (router w);
                  catchHandler := catchHandler (router w) |};
     trace := trace w |}.

(** The world after the routes [rs] went, one after the other in list
    order, to the front of their buckets. *)
Definition registered (rs : list Route) (w : World) : World :=
  foldl (fun w r => with_routes w (unshifted r (_routes (router w)))) w rs.

Definition on_method (m : string) (rs : list Route) : list Route :=
  filter (fun r => method r = m) rs.

(** [w'] holds no route that [w] does not hold: the same method keys,
    every bucket a sublist of what it was, the handler slots as they
    were. *)
Definition shrinks (w w' : World) : Prop :=
  dom (_routes (router w')) = dom (_routes (router w))
  /\ (forall m, bucket w' m `sublist_of` bucket w m)
  /\ defaultHandler (router w') = defaultHandler (router w)
  /\ catchHandler (router w') = catchHandler (router w).

(** ** Sample collaborators

    Concrete routes, handlers and events on which the statements below
    are exercised. *)

Module Sample.
Definition logo_url : URL :=
  {| protocol := "https:"; href := "https://example.com/images/logo.png" |}.
Definition extension_url : URL :=
  {| protocol := "chrome-extension:"; href := "chrome-extension://abc/page.html" |}.

Definition get_logo : FetchEvent :=
  {| request := {| request_url := logo_url; request_method := "GET" |} |}.
Definition get_extension : FetchEvent :=
  {| request := {| request_url := extension_url; request_method := "GET" |} |}.

Definition cacheFirst : Handler :=
  {| handle := fun _ => Fulfilled {| status := 200; body := "cached" |} |}.
Definition networkFirst : Handler :=
  {| handle := fun _ => Fulfilled {| status := 200; body := "fresh" |} |}.
Definition offline : Handler :=
  {| handle := fun _ => Rejected (JString "offline") |}.
Definition errorPage : Handler :=
  {| handle := fun ctx =>
       match ctx with
       | CatchContext _ _ (JString reason) => Fulfilled {| status := 503; body := reason |}
       | _ => Fulfilled {| status := 500; body := "error" |}
       end |}.

(** A pattern without capture groups: a match yields an empty array. *)
Definition images_route : Route :=
  {| ref := 1; method := "GET";
     route_match := fun ctx =>
       if String.prefix "https://example.com/images/" (href (match_url ctx))
       then JArray [] else JNull;
     handler := cacheFirst |}.

Definition logo_route : Route :=
  {| ref := 2; method := "GET";
     route_match := fun ctx =>
       JBool (String.eqb (href (match_url ctx)) "https://example.com/images/logo.png");
     handler := networkFirst |}.

Definition upload_route : Route :=
  {| ref := 3; method := "POST";
     route_match := fun _ => JObject CtorObject [];
     handler := offline |}.

Definition flaky_route : Route :=
  {| ref := 4; method := "GET";
     route_match := fun _ => JObject CtorObject [("id", JString "logo")];
     handler := offline |}.

Definition fresh : World := {| router := new_Router; trace := [] |}.

Definition with_images : World :=
  {| router := {| _routes := {[ "GET" := [images_route] ]};
                  defaultHandler := None; catchHandler := None |};
     trace := [] |}.

Definition with_default : World :=
  {| router := {| _routes := ∅;
                  defaultHandler := Some networkFirst; catchHandler := None |};
     trace := [] |}.

Definition with_flaky : World :=
  {| router := {| _routes := {[ "GET" := [flaky_route] ]};
                  defaultHandler := None; catchHandler := Some errorPage |};
     trace := [] |}.

(** One way to normalise a handler argument: an object with [handle]
    is kept, a bare function is wrapped, anything else is refused. *)
Inductive HandlerArg :=
| AsObject (h : Handler)
| AsFunction (f : HandlerContext -> Promise)
| AsOther (v : JsValue).

Definition normalizeHandler (a : HandlerArg) : Completion (option Handler) :=
  match a with
  | AsObject h => Normal (Some h)
  | AsFunction f => Normal (Some {| handle := f |})
  | AsOther _ => Throw (TypeMismatch "handler")
  end.

Definition service_worker : Host :=
  {| host_world := with_images; responses := [] |}.
End Sample.

(** * Proofs *)

Ltac unfold_M :=
  cbv beta iota zeta delta
    [mbind M_bind mret M_ret throw this emit set_routes
     logHelper_log logHelper_error call_match call_handle
     isInstance_Route isInstance_FetchEvent isArrayOfClass_Route].

Lemma extend_nil w : extend w [] = w.
Proof. destruct w; unfold extend; simpl. by rewrite app_nil_r. Qed.

Lemma extend_extend w a b : extend (extend w a) b = extend w (a ++ b).
Proof. unfold extend; simpl. by rewrite app_assoc. Qed.

Lemma router_extend w evs : router (extend w evs) = router w.
Proof. reflexivity. Qed.

Lemma bucket_extend w evs m : bucket (extend w evs) m = bucket w m.
Proof. reflexivity. Qed.

Lemma params_of_code v :
  (if Array_isArray v && (array_length v =? 0)%Z then JUndefined
   else if constructor_is_Object v && (length (Object_keys v) =? 0)%nat
        then JUndefined else v) = params_of v.
Proof.
  destruct v as [| | | | | |elems|c props]; try reflexivity.
  - by destruct elems.
  - destruct c, props; reflexivity.
Qed.

(** ** Settlement of the returned promise *)

(** With the catch slot unchanged between the call and the rejection,
    the returned promise settles as [guarded] says. *)
Lemma settle_attached later c event p :
  catchHandler later = c ->
  settle later (attached c event p) = guarded c event p.
Proof.
  intros <-. unfold attached, guarded, settle.
  destruct (catchHandler later) as [c|] eqn:Hc; [|reflexivity].
  destruct p; simpl; try reflexivity.
  unfold catch_callback. by rewrite Hc.
Qed.

(** A promise that is not rejected settles as it is. *)
Lemma settle_unrejected later c event p :
  (forall error, p <> Rejected error) ->
  settle later (attached c event p) = p.
Proof.
  intros Hp. destruct c; simpl; [|reflexivity].
  destruct p as [resp|error|]; try reflexivity. by destruct (Hp error).
Qed.

(** ** The search loop *)

Section Search.
Variable event : FetchEvent.
#[local] Abbreviation url := (request_url (request event)).

Lemma loop_rejected routes w :
  Forall (rejects event) routes ->
  findHandlerAndParams_loop routes event url w
  = (Normal (None, JUndefined), extend w (match_calls event routes)).
Proof.
  intros H. revert w. induction H as [|r rest Hr _ IH]; intros w.
  - simpl. unfold_M. by rewrite extend_nil.
  - simpl. unfold_M. unfold rejects, context_of in Hr.
    rewrite Hr. rewrite IH, extend_extend. reflexivity.
Qed.

Lemma loop_first_match pre r post w :
  Forall (rejects event) pre ->
  matches event r ->
  findHandlerAndParams_loop (pre ++ r :: post) event url w
  = (Normal (Some (handler r), params_of (route_match r (context_of event))),
     extend w (match_calls event pre ++
               [CallMatch r (context_of event);
                LogInfo MsgFoundRoute (Some r) (request event)])).
Proof.
  intros H Hm. revert w. induction H as [|q rest Hq _ IH]; intros w.
  - simpl. unfold_M. unfold matches, context_of in Hm.
    rewrite Hm. rewrite params_of_code, extend_extend. reflexivity.
  - simpl. unfold_M. unfold rejects, context_of in Hq.
    rewrite Hq. rewrite IH, extend_extend. reflexivity.
Qed.

(** The loop always returns, and only adds calls to the trace. *)
Lemma loop_total routes w :
  exists found evs,
    findHandlerAndParams_loop routes event url w = (Normal found, extend w evs)
    /\ handle_calls evs = [].
Proof.
  revert w. induction routes as [|r rest IH]; intros w.
  - exists (None, JUndefined), []. simpl. unfold_M. by rewrite extend_nil.
  - simpl. unfold_M.
    destruct (truthy (route_match r _)) eqn:Ht.
    + eexists _, _. rewrite extend_extend. split; [reflexivity|]. reflexivity.
    + destruct (IH (extend w [CallMatch r {| match_url := url; match_event := event |}]))
        as (found & evs & -> & Hc).
      eexists _, _. rewrite extend_extend. split; [reflexivity|].
      simpl. exact Hc.
Qed.
End Search.

(** ** [handleRequest] *)

Lemma findHandlerAndParams_unfold event w :
  _findHandlerAndParams event (request_url (request event)) w
  = findHandlerAndParams_loop (bucket w (request_method (request event)))
      event (request_url (request event)) w.
Proof. reflexivity. Qed.

Lemma prefix_negb_true s : String.prefix "http" s = true ->
  negb (String.prefix "http" s) = false.
Proof. by intros ->. Qed.

(** A selected handler is called with the selected parameters, and its
    promise is returned behind the catch slot. *)
Lemma handleRequest_dispatch event w h params evs :
  is_http event ->
  Selects w event h params evs ->
  handleRequest (AFetchEvent event) w
  = (Normal (Some (attached (catchHandler (router w)) event
                     (handle h (RouteContext (request_url (request event))
                                  event params)))),
     extend w (evs ++ [CallHandle h (RouteContext (request_url (request event))
                                       event params)])).
Proof.
  intros Hhttp Hsel. unfold handleRequest.
  cbv beta iota zeta delta [mbind M_bind mret M_ret isInstance_FetchEvent].
  rewrite (prefix_negb_true _ Hhttp).
  rewrite findHandlerAndParams_unfold.
  destruct Hsel as [pre r post Hb Hpre Hr | d Hall Hd].
  - rewrite Hb, (loop_first_match event pre r post w Hpre Hr).
    unfold_M. simpl.
    destruct (catchHandler (router w)); simpl;
      by rewrite extend_extend.
  - rewrite (loop_rejected event _ w Hall).
    unfold_M. simpl. rewrite Hd. simpl.
    destruct (catchHandler (router w)); simpl;
      by rewrite extend_extend.
Qed.

Lemma handleRequest_not_http event w :
  String.prefix "http" (protocol (request_url (request event))) = false ->
  handleRequest (AFetchEvent event) w
  = (Normal None, extend w [LogInfo MsgNotHttp None (request event)]).
Proof.
  intros H. unfold handleRequest. unfold_M. by rewrite H.
Qed.

Lemma handleRequest_unhandled event w :
  is_http event ->
  Forall (rejects event) (bucket w (request_method (request event))) ->
  defaultHandler (router w) = None ->
  handleRequest (AFetchEvent event) w
  = (Normal None,
     extend w (match_calls event (bucket w (request_method (request event))))).
Proof.
  intros Hhttp Hall Hd. unfold handleRequest.
  cbv beta iota zeta delta [mbind M_bind mret M_ret isInstance_FetchEvent].
  rewrite (prefix_negb_true _ Hhttp).
  rewrite findHandlerAndParams_unfold, (loop_rejected event _ w Hall).
  unfold_M. simpl. by rewrite Hd.
Qed.

(** On a fetch event the call returns, and the world it leaves differs
    from the one it found by trace entries only. *)
Lemma handleRequest_total event w :
  exists res evs,
    handleRequest (AFetchEvent event) w = (Normal res, extend w evs).
Proof.
  unfold handleRequest.
  cbv beta iota zeta delta [mbind M_bind mret M_ret isInstance_FetchEvent].
  destruct (negb (String.prefix "http" _)).
  - unfold_M. eauto.
  - rewrite findHandlerAndParams_unfold.
    destruct (loop_total event (bucket w (request_method (request event))) w)
      as (found & evs & -> & _).
    unfold_M. simpl.
    match goal with
    | |- context [match ?x with Some _ => _ | None => _ end] => destruct x
    end.
    + destruct (catchHandler (router w)); rewrite extend_extend; eauto.
    + eauto.
Qed.

Lemma handle_calls_app a b : handle_calls (a ++ b) = handle_calls a ++ handle_calls b.
Proof. unfold handle_calls. apply omap_app. Qed.

Lemma handle_calls_match_calls event routes :
  handle_calls (match_calls event routes) = [].
Proof. induction routes; [reflexivity|exact IHroutes]. Qed.

Lemma Selects_no_handle_calls w event h params evs :
  Selects w event h params evs -> handle_calls evs = [].
Proof.
  intros [pre r post _ _ _ | d _ _].
  - by rewrite handle_calls_app, handle_calls_match_calls.
  - apply handle_calls_match_calls.
Qed.

(** ** Registration *)

Lemma registerRoutes_body_spec r w :
  registerRoutes_body r w
  = (Normal tt, with_routes w (unshifted r (_routes (router w)))).
Proof.
  unfold registerRoutes_body, unshifted, with_routes. unfold_M.
  destruct (_routes (router w) !! method r) as [b|] eqn:Hb; simpl.
  - by rewrite Hb.
  - rewrite lookup_insert_eq. simpl. by rewrite insert_insert_eq.
Qed.

Lemma for_of_registerRoutes_body rs w :
  for_of rs registerRoutes_body w = (Normal tt, registered rs w).
Proof.
  revert w. induction rs as [|r rs IH]; intros w; [reflexivity|].
  simpl. unfold mbind, M_bind. rewrite registerRoutes_body_spec. apply IH.
Qed.

Lemma all_routes_ARoute rs : all_routes (ARoute <$> rs) = Some rs.
Proof. induction rs as [|r rs IH]; [reflexivity|]. csimpl. by rewrite IH. Qed.

Lemma all_routes_Some args rs :
  all_routes args = Some rs -> args = ARoute <$> rs.
Proof.
  revert rs. induction args as [|[r|v] args IH]; intros rs H; simpl in H.
  - by inversion H.
  - destruct (all_routes args) as [rs'|]; [|done].
    inversion H; subst. csimpl. f_equal. by apply IH.
  - done.
Qed.

Lemma all_routes_None args :
  all_routes args = None <-> exists v, ANotRoute v ∈ args.
Proof.
  induction args as [|[r|v] args IH]; simpl.
  - split; [done|]. intros [v Hv]. by apply elem_of_nil in Hv.
  - destruct (all_routes args) as [rs'|]; simpl.
    + split; [done|]. intros [v Hv]. apply elem_of_cons in Hv as [?|Hv]; [done|].
      destruct IH as [_ IH]. discriminate IH. eauto.
    + split; [|done]. intros _. destruct IH as [IH _].
      destruct (IH eq_refl) as [v Hv]. exists v. by right.
  - split; [|done]. intros _. exists v. by left.
Qed.

Lemma registerRoutes_spec rs w :
  registerRoutes (ARoute <$> rs) w = (Normal tt, registered rs w).
Proof.
  unfold registerRoutes, isArrayOfClass_Route. rewrite all_routes_ARoute.
  unfold mbind, M_bind, mret, M_ret. apply for_of_registerRoutes_body.
Qed.

Lemma registerRoute_spec r w :
  registerRoute (ARoute r) w = (Normal tt, registered [r] w).
Proof.
  unfold registerRoute, isInstance_Route.
  cbv beta iota zeta delta [mbind M_bind mret M_ret].
  apply (registerRoutes_spec [r]).
Qed.

Lemma registered_app a b w : registered (a ++ b) w = registered b (registered a w).
Proof. unfold registered. apply foldl_app. Qed.

Lemma registered_slots rs w :
  defaultHandler (router (registered rs w)) = defaultHandler (router w)
  /\ catchHandler (router (registered rs w)) = catchHandler (router w)
  /\ trace (registered rs w) = trace w.
Proof.
  revert w. induction rs as [|r rs IH]; intros w; [done|].
  simpl. destruct (IH (with_routes w (unshifted r (_routes (router w)))))
    as (-> & -> & ->). done.
Qed.

Lemma bucket_unshifted r w m :
  bucket (with_routes w (unshifted r (_routes (router w)))) m
  = on_method m [r] ++ bucket w m.
Proof.
  unfold bucket, with_routes, unshifted, on_method. simpl.
  destruct (decide (method r = m)) as [<-|Hne].
  - rewrite lookup_insert_eq. simpl. by rewrite filter_cons_True.
  - rewrite lookup_insert_ne by done. by rewrite filter_cons_False.
Qed.

(** Registration order, reversed, in front of what was there. *)
Lemma bucket_registered rs w m :
  bucket (registered rs w) m = reverse (on_method m rs) ++ bucket w m.
Proof.
  revert w. induction rs as [|r rs IH]; intros w; [reflexivity|].
  change (registered (r :: rs) w)
    with (registered rs (with_routes w (unshifted r (_routes (router w))))).
  rewrite IH, bucket_unshifted. unfold on_method.
  destruct (decide (method r = m)) as [Hm|Hm].
  - rewrite !filter_cons_True by done. rewrite filter_nil, reverse_cons.
    by rewrite <- app_assoc.
  - rewrite !filter_cons_False by done. by rewrite filter_nil.
Qed.

(** A method with no bucket and no route in the batch still has none. *)
Lemma registered_lookup_None rs w m :
  _routes (router w) !! m = None -> on_method m rs = [] ->
  _routes (router (registered rs w)) !! m = None.
Proof.
  revert w. induction rs as [|r rs IH]; intros w Hw Hrs; [done|].
  unfold on_method in Hrs.
  destruct (decide (method r = m)) as [Hm|Hm].
  - by rewrite filter_cons_True in Hrs.
  - rewrite filter_cons_False in Hrs by done.
    simpl. apply IH; [|done]. simpl. unfold unshifted.
    by rewrite lookup_insert_ne.
Qed.

(** ** Unregistration *)

Lemma indexOf_from_range i x l :
  indexOf_from i x l = (-1)%Z
  \/ (i <= indexOf_from i x l < i + Z.of_nat (length l))%Z.
Proof.
  revert i. induction l as [|y l IH]; intros i; simpl; [by left|].
  destruct (Nat.eqb (ref y) (ref x)); [right; lia|].
  destruct (IH (i + 1)%Z) as [->|H]; [by left|right; lia].
Qed.

(** [indexOf] answers [-1] exactly when no entry of the bucket is the
    route object asked for. *)
Lemma indexOf_from_absent i x l :
  (0 <= i)%Z ->
  indexOf_from i x l = (-1)%Z <-> Forall (fun y => ref y <> ref x) l.
Proof.
  revert i. induction l as [|y l IH]; intros i Hi; simpl.
  - split; [constructor|done].
  - destruct (Nat.eqb_spec (ref y) (ref x)) as [Heq|Hne].
    + split; [lia|]. intros H. by inversion H.
    + rewrite IH by lia. split; [by constructor|]. intros H. by inversion H.
Qed.

Lemma unregisterRoutes_body_missing_bucket r w :
  _routes (router w) !! method r = None ->
  unregisterRoutes_body r w
  = (Throw (TypeError "indexOf of undefined"),
     extend w [LogError (MsgNoRoutesForMethod (method r)) r]).
Proof.
  intros H. unfold unregisterRoutes_body. unfold_M. rewrite H. simpl.
  by rewrite H.
Qed.

Lemma unregisterRoutes_body_not_found r w b :
  _routes (router w) !! method r = Some b ->
  indexOf r b = (-1)%Z ->
  unregisterRoutes_body r w
  = (Normal tt, extend w [LogError MsgNotPreviouslyRegistered r]).
Proof.
  intros H Hi. unfold unregisterRoutes_body. unfold_M. rewrite H. simpl.
  by rewrite H, Hi.
Qed.

Lemma unregisterRoutes_body_found r w b :
  _routes (router w) !! method r = Some b ->
  (0 <= indexOf r b)%Z ->
  unregisterRoutes_body r w
  = (Normal tt,
     with_routes w (<[method r := splice b (indexOf r b) 1]> (_routes (router w)))).
Proof.
  intros H Hi. unfold unregisterRoutes_body. unfold_M. rewrite H. simpl.
  rewrite H. destruct (indexOf r b >? -1)%Z eqn:Hgt; [reflexivity|lia].
Qed.

(** Route objects that sit in no bucket of their (existing) method are
    each reported and skipped; the table stays as it was. *)
Lemma unregisterRoutes_not_found rs w :
  Forall (fun r => exists b, _routes (router w) !! method r = Some b
                             /\ indexOf r b = (-1)%Z) rs ->
  unregisterRoutes (ARoute <$> rs) w
  = (Normal tt, extend w (LogError MsgNotPreviouslyRegistered <$> rs)).
Proof.
  unfold unregisterRoutes, isArrayOfClass_Route. rewrite all_routes_ARoute.
  cbv beta iota zeta delta [mbind M_bind mret M_ret].
  assert (Hgen : forall evs,
    Forall (fun r => exists b, _routes (router w) !! method r = Some b
                             /\ indexOf r b = (-1)%Z) rs ->
    for_of rs unregisterRoutes_body (extend w evs)
    = (Normal tt, extend w (evs ++ (LogError MsgNotPreviouslyRegistered <$> rs)))).
  { induction rs as [|r rs IH]; intros evs Hall.
    - simpl. unfold_M. by rewrite app_nil_r.
    - inversion Hall as [|? ? (b & Hb & Hi) Hrest]; subst.
      simpl. unfold mbind, M_bind.
      rewrite (unregisterRoutes_body_not_found r (extend w evs) b Hb Hi).
      rewrite extend_extend, IH by done. csimpl.
      by rewrite <- app_assoc. }
  intros Hall. rewrite <- (extend_nil w) at 1. by rewrite Hgen.
Qed.

(** A route whose method has no bucket stops the whole call with a
    [TypeError], right after the diagnostic. *)
Lemma unregisterRoute_missing_bucket r w :
  _routes (router w) !! method r = None ->
  unregisterRoute (ARoute r) w
  = (Throw (TypeError "indexOf of undefined"),
     extend w [LogError (MsgNoRoutesForMethod (method r)) r]).
Proof.
  intros H. unfold unregisterRoute, unregisterRoutes.
  cbv beta iota zeta delta
    [mbind M_bind mret M_ret isInstance_Route isArrayOfClass_Route all_routes
     fmap option_fmap option_map for_of].
  by rewrite unregisterRoutes_body_missing_bucket.
Qed.

(** * Properties of the router *)

Lemma params_of_empty v :
  v = JArray [] \/ v = JObject CtorObject [] -> params_of v = JUndefined.
Proof. by intros [-> | ->]. Qed.

Lemma params_of_other v :
  v <> JArray [] -> v <> JObject CtorObject [] -> params_of v = v.
Proof.
  intros Ha Ho. destruct v as [| | | | | |elems|c props]; try reflexivity.
  - by destruct elems.
  - destruct c, props; try reflexivity. done.
Qed.

Lemma handle_calls_extend w evs :
  handle_calls (trace (extend w evs)) = handle_calls (trace w) ++ handle_calls evs.
Proof. apply handle_calls_app. Qed.

Lemma dispatch_handle_calls w event h params evs :
  is_http event ->
  Selects w event h params evs ->
  handle_calls (trace (exec (handleRequest (AFetchEvent event)) w))
  = handle_calls (trace w)
    ++ [(h, RouteContext (request_url (request event)) event params)].
Proof.
  intros Hhttp Hsel. unfold exec.
  rewrite (handleRequest_dispatch _ _ _ _ _ Hhttp Hsel). simpl.
  rewrite !handle_calls_app, (Selects_no_handle_calls _ _ _ _ _ Hsel).
  reflexivity.
Qed.

Lemma Forall_on_method (P : Route -> Prop) m rs :
  Forall (fun r => method r = m -> P r) rs -> Forall P (on_method m rs).
Proof.
  unfold on_method. induction 1 as [|r l Hr _ IH]; [constructor|].
  destruct (decide (method r = m)) as [He|Hne].
  - rewrite filter_cons_True by done. constructor; auto.
  - by rewrite filter_cons_False.
Qed.

(** C1.  Two routes of one method, [R1] registered first and [R2]
    after it (with any registrations [mid] in between), both accepting
    a request of that method over an HTTP URL: [handleRequest] calls the
    handler of [R2] and no other, and returns its promise (which, with
    the catch slot as it was at the call, settles as that promise behind
    the catch handler).  A route accepts a request when its
    match result passes the loop's test [if (matchResult)].  [R2] is the
    most recent registration that accepts the request: whatever was
    registered [later] belongs to another method or turns the request
    down. *)
Theorem most_recently_registered_match_wins
  (w : World) (event : FetchEvent) (R1 R2 : Route) (mid later : list Route) :
  method R1 = method R2 ->
  request_method (request event) = method R2 ->
  is_http event ->
  matches event R1 ->
  matches event R2 ->
  Forall (fun r => method r = method R2 -> rejects event r) later ->
  let w' := exec (registerRoutes (ARoute <$> later))
              (exec (registerRoute (ARoute R2))
                 (exec (registerRoutes (ARoute <$> mid))
                    (exec (registerRoute (ARoute R1)) w))) in
  let ctx := RouteContext (request_url (request event)) event
               (params_of (route_match R2 (context_of event))) in
  result (handleRequest (AFetchEvent event)) w'
  = Normal (Some (attached (catchHandler (router w)) event (handle (handler R2) ctx)))
  /\ (forall afterwards, catchHandler afterwards = catchHandler (router w) ->
        settle afterwards
          (attached (catchHandler (router w)) event (handle (handler R2) ctx))
        = guarded (catchHandler (router w)) event (handle (handler R2) ctx))
  /\ handle_calls (trace (exec (handleRequest (AFetchEvent event)) w'))
     = handle_calls (trace w) ++ [(handler R2, ctx)].
Proof.
  intros Hm Hreq Hhttp H1 H2 Hlater w' ctx.
  assert (Hw' : w' = registered (([R1] ++ mid) ++ [R2] ++ later) w).
  { subst w'. unfold exec.
    rewrite registerRoute_spec, registerRoutes_spec, registerRoute_spec,
      registerRoutes_spec. simpl.
    by rewrite !registered_app. }
  assert (Hsel : Selects w' event (handler R2)
                   (params_of (route_match R2 (context_of event)))
                   (match_calls event (reverse (on_method (method R2) later)) ++
                    [CallMatch R2 (context_of event);
                     LogInfo MsgFoundRoute (Some R2) (request event)])).
  { eapply Selects_route with
      (post := reverse (on_method (method R2) ([R1] ++ mid)) ++ bucket w (method R2)).
    - rewrite Hreq, Hw', bucket_registered. unfold on_method.
      rewrite (filter_app _ ([R1] ++ mid)), (filter_app _ [R2]).
      rewrite (filter_cons_True _ R2) by done. rewrite filter_nil.
      rewrite !reverse_app. simpl (reverse [R2]).
      rewrite <- !app_assoc. reflexivity.
    - apply Forall_reverse, Forall_on_method, Hlater.
    - exact H2. }
  destruct (registered_slots (([R1] ++ mid) ++ [R2] ++ later) w) as (_ & Hc & Ht).
  split; [|split].
  - unfold result. rewrite (handleRequest_dispatch _ _ _ _ _ Hhttp Hsel).
    simpl. by rewrite Hw', Hc.
  - intros slot_later Hl. by apply settle_attached.
  - rewrite (dispatch_handle_calls _ _ _ _ _ Hhttp Hsel).
    by rewrite Hw', Ht.
Qed.

Lemma most_recently_registered_match_wins_witness :
  result (handleRequest (AFetchEvent Sample.get_logo))
    (exec (registerRoutes (ARoute <$> [Sample.upload_route]))
       (exec (registerRoute (ARoute Sample.logo_route))
          (exec (registerRoutes (ARoute <$> []))
             (exec (registerRoute (ARoute Sample.images_route)) Sample.fresh))))
  = Normal (Some (Direct (Fulfilled {| status := 200; body := "fresh" |}))).
Proof.
  refine (proj1 (most_recently_registered_match_wins Sample.fresh Sample.get_logo
            Sample.images_route Sample.logo_route [] [Sample.upload_route]
            _ _ _ _ _ _)).
  - reflexivity.
  - reflexivity.
  - reflexivity.
  - reflexivity.
  - reflexivity.
  - repeat constructor. discriminate.
Defined.

(** C2.  The code at a route whose method has no bucket.  The router
    holds one GET route; the batch names a POST route first and the GET
    route second.  The call reports that no POST routes are registered
    and then fails with a [TypeError] on the missing bucket: it does not
    return normally, and the GET route that follows in the batch is never
    looked at and stays registered. *)
Theorem unregisterRoutes_missing_bucket_throws :
  unregisterRoutes [ARoute Sample.upload_route; ARoute Sample.images_route]
    Sample.with_images
  = (Throw (TypeError "indexOf of undefined"),
     extend Sample.with_images
       [LogError (MsgNoRoutesForMethod "POST") Sample.upload_route])
  /\ unregisterRoute (ARoute Sample.upload_route) Sample.fresh
     = (Throw (TypeError "indexOf of undefined"),
        extend Sample.fresh
          [LogError (MsgNoRoutesForMethod "POST") Sample.upload_route]).
Proof.
  split.
  - unfold unregisterRoutes.
    cbv beta iota zeta delta
      [mbind M_bind mret M_ret isArrayOfClass_Route all_routes
       fmap option_fmap option_map for_of].
    by rewrite unregisterRoutes_body_missing_bucket.
  - by apply unregisterRoute_missing_bucket.
Qed.

(** C3.  When the winning route's match result is an empty array or an
    empty plain object, the handler receives [undefined] as [params];
    any other match result of a winning route reaches the handler as it
    is. *)
Theorem empty_match_result_becomes_undefined
  (w : World) (event : FetchEvent) (pre post : list Route) (r : Route) :
  is_http event ->
  bucket w (request_method (request event)) = pre ++ r :: post ->
  Forall (rejects event) pre ->
  matches event r ->
  exists params,
    handle_calls (trace (exec (handleRequest (AFetchEvent event)) w))
    = handle_calls (trace w)
      ++ [(handler r, RouteContext (request_url (request event)) event params)]
    /\ (route_match r (context_of event) = JArray []
        \/ route_match r (context_of event) = JObject CtorObject [] ->
        params = JUndefined)
    /\ (route_match r (context_of event) <> JArray [] ->
        route_match r (context_of event) <> JObject CtorObject [] ->
        params = route_match r (context_of event)).
Proof.
  intros Hhttp Hb Hpre Hr.
  exists (params_of (route_match r (context_of event))).
  split; [|split].
  - eapply dispatch_handle_calls; [done|]. by eapply Selects_route.
  - apply params_of_empty.
  - apply params_of_other.
Qed.

Lemma empty_match_result_becomes_undefined_witness :
  exists params,
    handle_calls (trace (exec (handleRequest (AFetchEvent Sample.get_logo))
                           Sample.with_images))
    = [(Sample.cacheFirst,
        RouteContext Sample.logo_url Sample.get_logo params)]
    /\ params = JUndefined.
Proof.
  destruct (empty_match_result_becomes_undefined Sample.with_images
              Sample.get_logo [] [] Sample.images_route)
    as (params & Hcalls & Hempty & _).
  - reflexivity.
  - reflexivity.
  - constructor.
  - reflexivity.
  - exists params. split; [exact Hcalls|]. apply Hempty. left. reflexivity.
Defined.

(** C4.  A request whose URL protocol does not start with [http] gets
    no response: [handleRequest] returns [undefined], calls no route
    predicate and no handler, and only logs. *)
Theorem non_http_request_is_not_handled (w : World) (event : FetchEvent) :
  String.prefix "http" (protocol (request_url (request event))) = false ->
  result (handleRequest (AFetchEvent event)) w = Normal None
  /\ match_calls_in (trace (exec (handleRequest (AFetchEvent event)) w))
     = match_calls_in (trace w)
  /\ handle_calls (trace (exec (handleRequest (AFetchEvent event)) w))
     = handle_calls (trace w)
  /\ exec (handleRequest (AFetchEvent event)) w
     = extend w [LogInfo MsgNotHttp None (request event)].
Proof.
  intros H. unfold result, exec. rewrite (handleRequest_not_http _ _ H). simpl.
  repeat split.
  - unfold match_calls_in. rewrite omap_app. simpl. apply app_nil_r.
  - rewrite handle_calls_app. simpl. apply app_nil_r.
Qed.

Lemma non_http_request_is_not_handled_witness :
  result (handleRequest (AFetchEvent Sample.get_extension)) Sample.with_images
  = Normal None.
Proof.
  refine (proj1 (non_http_request_is_not_handled Sample.with_images
                   Sample.get_extension _)).
  reflexivity.
Defined.

(** C5.  When the promise of the selected handler (the winning route's,
    or the default handler when no route accepts the request) is
    rejected with [error]:
    - with a catch handler set at the time of the call, [handleRequest]
      returns the handler's promise with the recovery callback attached,
      and when the rejection is processed the result is what the catch
      handler found in the slot returns for [{url, event, error}]: the
      one set at the call when the slot was not assigned since, the new
      one when it was;
    - without a catch handler at the time of the call, the result is
      the rejection itself, whatever is set afterwards. *)
Theorem handler_failure_and_catch_handler
  (w : World) (event : FetchEvent) (h : Handler) (params : JsValue)
  (evs : list Event) (error : JsValue) :
  is_http event ->
  Selects w event h params evs ->
  handle h (RouteContext (request_url (request event)) event params)
  = Rejected error ->
  (forall c0, catchHandler (router w) = Some c0 ->
     result (handleRequest (AFetchEvent event)) w
     = Normal (Some (Caught (Rejected error) (request_url (request event)) event))
     /\ settle (router (exec (handleRequest (AFetchEvent event)) w))
          (Caught (Rejected error) (request_url (request event)) event)
        = handle c0 (CatchContext (request_url (request event)) event error)
     /\ (forall later c, catchHandler later = Some c ->
           settle later
             (Caught (Rejected error) (request_url (request event)) event)
           = handle c (CatchContext (request_url (request event)) event error)))
  /\ (catchHandler (router w) = None ->
      result (handleRequest (AFetchEvent event)) w
      = Normal (Some (Direct (Rejected error)))
      /\ (forall later, settle later (Direct (Rejected error)) = Rejected error)).
Proof.
  intros Hhttp Hsel Hrej. unfold result, exec.
  rewrite (handleRequest_dispatch _ _ _ _ _ Hhttp Hsel). cbn [fst snd].
  rewrite Hrej. split.
  - intros c0 Hc0. rewrite Hc0. split; [reflexivity|]. split.
    + simpl. unfold catch_callback. simpl. by rewrite Hc0.
    + intros later c Hc. simpl. unfold catch_callback. by rewrite Hc.
  - intros ->. by split.
Qed.

Lemma handler_failure_and_catch_handler_witness :
  result (handleRequest (AFetchEvent Sample.get_logo)) Sample.with_flaky
  = Normal (Some (Caught (Rejected (JString "offline")) Sample.logo_url
                    Sample.get_logo))
  /\ settle (router (exec (handleRequest (AFetchEvent Sample.get_logo))
                       Sample.with_flaky))
       (Caught (Rejected (JString "offline")) Sample.logo_url Sample.get_logo)
     = Fulfilled {| status := 503; body := "offline" |}.
Proof.
  destruct (proj1 (handler_failure_and_catch_handler Sample.with_flaky
                     Sample.get_logo Sample.offline
                     (params_of (route_match Sample.flaky_route
                                   (context_of Sample.get_logo)))
                     _ (JString "offline") eq_refl
                     (Selects_route Sample.with_flaky Sample.get_logo []
                        Sample.flaky_route [] eq_refl (List.Forall_nil _) eq_refl)
                     eq_refl)
              Sample.errorPage eq_refl) as (Hres & Hsettle & _).
  split; [exact Hres|exact Hsettle].
Defined.

(** C6.  Over an HTTP URL, when every route of the request's method
    turns the request down and there is no default handler,
    [handleRequest] returns [undefined] and calls no handler. *)
Theorem unmatched_without_default_is_not_handled
  (w : World) (event : FetchEvent) :
  is_http event ->
  Forall (rejects event) (bucket w (request_method (request event))) ->
  defaultHandler (router w) = None ->
  result (handleRequest (AFetchEvent event)) w = Normal None
  /\ handle_calls (trace (exec (handleRequest (AFetchEvent event)) w))
     = handle_calls (trace w).
Proof.
  intros Hhttp Hall Hd. unfold result, exec.
  rewrite (handleRequest_unhandled _ _ Hhttp Hall Hd). simpl.
  split; [reflexivity|].
  rewrite handle_calls_app, handle_calls_match_calls. apply app_nil_r.
Qed.

Lemma unmatched_without_default_is_not_handled_witness :
  result (handleRequest (AFetchEvent Sample.get_logo)) Sample.fresh = Normal None.
Proof.
  refine (proj1 (unmatched_without_default_is_not_handled Sample.fresh
                   Sample.get_logo _ _ _)).
  - reflexivity.
  - constructor.
  - reflexivity.
Defined.

(** C7.  Over an HTTP URL, when every route of the request's method
    turns the request down and a default handler is set, the default
    handler is called, once, with [undefined] as [params], and its
    promise is returned, with the recovery callback attached when a
    catch handler is set; with the catch slot as it was at the call,
    that promise settles as the handler's promise behind the catch
    handler. *)
Theorem unmatched_goes_to_default_handler
  (w : World) (event : FetchEvent) (d : Handler) :
  is_http event ->
  Forall (rejects event) (bucket w (request_method (request event))) ->
  defaultHandler (router w) = Some d ->
  let ctx := RouteContext (request_url (request event)) event JUndefined in
  result (handleRequest (AFetchEvent event)) w
  = Normal (Some (attached (catchHandler (router w)) event (handle d ctx)))
  /\ (forall later, catchHandler later = catchHandler (router w) ->
        settle later (attached (catchHandler (router w)) event (handle d ctx))
        = match catchHandler (router w) with
          | Some c =>
              Promise_catch (handle d ctx) (fun error =>
                handle c (CatchContext (request_url (request event))
                            event error))
          | None => handle d ctx
          end)
  /\ handle_calls (trace (exec (handleRequest (AFetchEvent event)) w))
     = handle_calls (trace w) ++ [(d, ctx)].
Proof.
  intros Hhttp Hall Hd ctx.
  pose proof (Selects_default w event d Hall Hd) as Hsel.
  split; [|split].
  - unfold result. by rewrite (handleRequest_dispatch _ _ _ _ _ Hhttp Hsel).
  - intros later Hlater. by rewrite (settle_attached later _ event _ Hlater).
  - by apply (dispatch_handle_calls _ _ _ _ _ Hhttp Hsel).
Qed.

Lemma unmatched_goes_to_default_handler_witness :
  result (handleRequest (AFetchEvent Sample.get_logo)) Sample.with_default
  = Normal (Some (Direct (Fulfilled {| status := 200; body := "fresh" |}))).
Proof.
  refine (proj1 (unmatched_goes_to_default_handler Sample.with_default
                   Sample.get_logo Sample.networkFirst _ _ _)).
  - reflexivity.
  - constructor.
  - reflexivity.
Defined.

Lemma for_of_registerRoute rs w :
  for_of rs (fun r => registerRoute (ARoute r)) w = (Normal tt, registered rs w).
Proof.
  revert w. induction rs as [|r rs IH]; intros w; [reflexivity|].
  simpl. unfold mbind, M_bind. rewrite registerRoute_spec. apply IH.
Qed.

(** C8.  [registerRoutes] on a sequence of routes does what
    [registerRoute] does when applied to its elements from left to
    right.  Afterwards every method's bucket holds the routes of the
    sequence that have this method, in reverse input order, in front of
    the routes it held before; the last element of the sequence is the
    first route of its bucket. *)
Theorem registerRoutes_is_registerRoute_in_order (rs : list Route) (w : World) :
  registerRoutes (ARoute <$> rs) w
  = for_of rs (fun r => registerRoute (ARoute r)) w
  /\ result (registerRoutes (ARoute <$> rs)) w = Normal tt
  /\ (forall m,
        bucket (exec (registerRoutes (ARoute <$> rs)) w) m
        = reverse (filter (fun r => method r = m) rs) ++ bucket w m)
  /\ (forall rs' r, rs = rs' ++ [r] ->
        head (bucket (exec (registerRoutes (ARoute <$> rs)) w) (method r))
        = Some r).
Proof.
  unfold result, exec. rewrite registerRoutes_spec, for_of_registerRoute. simpl.
  split; [reflexivity|]. split; [reflexivity|]. split.
  - intros m. apply bucket_registered.
  - intros rs' r ->. rewrite bucket_registered. unfold on_method.
    rewrite filter_app, filter_cons_True by done.
    rewrite filter_nil, reverse_app. reflexivity.
Qed.

Lemma registerRoutes_is_registerRoute_in_order_witness :
  bucket (exec (registerRoutes
                  (ARoute <$> [Sample.images_route; Sample.upload_route;
                               Sample.logo_route]))
            Sample.fresh) "GET"
  = [Sample.logo_route; Sample.images_route]
  /\ head (bucket (exec (registerRoutes
                           (ARoute <$> [Sample.images_route; Sample.upload_route;
                                        Sample.logo_route]))
                     Sample.fresh) "GET")
     = Some Sample.logo_route.
Proof.
  destruct (registerRoutes_is_registerRoute_in_order
              [Sample.images_route; Sample.upload_route; Sample.logo_route]
              Sample.fresh) as (_ & _ & Hbucket & Hlast).
  split.
  - exact (Hbucket "GET").
  - exact (Hlast [Sample.images_route; Sample.upload_route] Sample.logo_route
             eq_refl).
Defined.

(** C9.  [registerRoutes] can only fail in its check of the argument,
    which comes before the first insertion: a failed call is a
    TypeMismatch on an argument with an element that is no route, and
    it leaves the world, the route table included, as it found it. *)
Theorem registerRoutes_failure_registers_nothing
  (args : list RouteArg) (w w' : World) (e : Exn) :
  registerRoutes args w = (Throw e, w') ->
  e = TypeMismatch "routes"
  /\ (exists v, ANotRoute v ∈ args)
  /\ w' = w
  /\ _routes (router w') = _routes (router w).
Proof.
  unfold registerRoutes, isArrayOfClass_Route.
  destruct (all_routes args) as [rs|] eqn:Hall.
  - cbv beta iota zeta delta [mbind M_bind mret M_ret].
    rewrite for_of_registerRoutes_body. discriminate.
  - cbv beta iota zeta delta [mbind M_bind throw].
    intros [= <- <-]. split; [reflexivity|].
    split; [by apply all_routes_None|]. done.
Qed.

Lemma registerRoutes_failure_registers_nothing_witness :
  _routes (router (exec (registerRoutes
                           [ARoute Sample.logo_route; ANotRoute (JString "/images/")])
                     Sample.with_images))
  = _routes (router Sample.with_images).
Proof.
  refine (proj2 (proj2 (proj2
    (registerRoutes_failure_registers_nothing
       [ARoute Sample.logo_route; ANotRoute (JString "/images/")]
       Sample.with_images _ (TypeMismatch "routes") _)))).
  reflexivity.
Defined.

(** C10.  [handleRequest] on a fetch event returns, and leaves the
    router as it found it: the same route table (keys, buckets, order),
    the same default handler, the same catch handler. *)
Theorem handleRequest_leaves_router_unchanged (event : FetchEvent) (w : World) :
  (exists res, result (handleRequest (AFetchEvent event)) w = Normal res)
  /\ _routes (router (exec (handleRequest (AFetchEvent event)) w))
     = _routes (router w)
  /\ defaultHandler (router (exec (handleRequest (AFetchEvent event)) w))
     = defaultHandler (router w)
  /\ catchHandler (router (exec (handleRequest (AFetchEvent event)) w))
     = catchHandler (router w).
Proof.
  destruct (handleRequest_total event w) as (res & evs & H).
  unfold result, exec. rewrite H. simpl. eauto.
Qed.

(** * Further properties *)

(** ** What [handleRequest] depends on *)

(** The search over a list of routes finds the same handler and makes
    the same calls in every world. *)
Lemma loop_uniform event routes :
  exists found evs,
    handle_calls evs = []
    /\ forall w,
         findHandlerAndParams_loop routes event (request_url (request event)) w
         = (Normal found, extend w evs).
Proof.
  induction routes as [|r rest (found & evs & Hc & IH)].
  - exists (None, JUndefined), []. split; [reflexivity|].
    intros w. simpl. unfold_M. by rewrite extend_nil.
  - simpl. unfold_M.
    destruct (truthy (route_match r _)) eqn:Ht.
    + eexists _, _. split; [|intros w; rewrite extend_extend; reflexivity].
      reflexivity.
    + eexists _, _. split; [|intros w; rewrite IH, extend_extend; reflexivity].
      simpl. exact Hc.
Qed.

(** Two worlds that agree on the bucket of the request's method and on
    the two handler slots get the same answer and the same calls. *)
Lemma handleRequest_uniform event w1 w2 :
  bucket w1 (request_method (request event))
  = bucket w2 (request_method (request event)) ->
  defaultHandler (router w1) = defaultHandler (router w2) ->
  catchHandler (router w1) = catchHandler (router w2) ->
  exists res evs,
    handleRequest (AFetchEvent event) w1 = (Normal res, extend w1 evs)
    /\ handleRequest (AFetchEvent event) w2 = (Normal res, extend w2 evs).
Proof.
  intros Hb Hd Hc. unfold handleRequest.
  cbv beta iota zeta delta [mbind M_bind mret M_ret isInstance_FetchEvent].
  destruct (negb (String.prefix "http" _)).
  - unfold_M. eauto.
  - rewrite !findHandlerAndParams_unfold, Hb.
    destruct (loop_uniform event (bucket w2 (request_method (request event))))
      as (found & evs & _ & Hloop).
    rewrite !Hloop. unfold_M. simpl. rewrite Hd, Hc.
    match goal with
    | |- context [match ?x with Some _ => _ | None => _ end] => destruct x
    end.
    + destruct (catchHandler (router w2)); rewrite !extend_extend; eauto.
    + eauto.
Qed.

Lemma on_method_other m rs :
  Forall (fun r => method r <> m) rs -> on_method m rs = [].
Proof.
  unfold on_method. induction 1 as [|r l Hr _ IH]; [reflexivity|].
  by rewrite filter_cons_False.
Qed.

(** Routes registered for other methods do not change how a request is
    answered: the result of [handleRequest] and the calls it makes are
    those of the router without them. *)
Theorem other_methods_do_not_interfere
  (w : World) (event : FetchEvent) (rs : list Route) :
  Forall (fun r => method r <> request_method (request event)) rs ->
  exists res evs,
    handleRequest (AFetchEvent event) w = (Normal res, extend w evs)
    /\ handleRequest (AFetchEvent event) (exec (registerRoutes (ARoute <$> rs)) w)
       = (Normal res, extend (exec (registerRoutes (ARoute <$> rs)) w) evs).
Proof.
  intros Hrs. unfold exec. rewrite registerRoutes_spec. simpl.
  destruct (registered_slots rs w) as (Hd & Hc & _).
  destruct (handleRequest_uniform event w (registered rs w)) as (res & evs & H1 & H2).
  - by rewrite bucket_registered, (on_method_other _ _ Hrs).
  - done.
  - done.
  - eauto.
Qed.

Lemma other_methods_do_not_interfere_witness :
  exists res evs,
    handleRequest (AFetchEvent Sample.get_logo) Sample.with_images
    = (Normal res, extend Sample.with_images evs)
    /\ handleRequest (AFetchEvent Sample.get_logo)
         (exec (registerRoutes (ARoute <$> [Sample.upload_route]))
            Sample.with_images)
       = (Normal res,
          extend (exec (registerRoutes (ARoute <$> [Sample.upload_route]))
                    Sample.with_images) evs).
Proof.
  apply (other_methods_do_not_interfere Sample.with_images Sample.get_logo
           [Sample.upload_route]).
  repeat constructor. discriminate.
Defined.

(** [handleRequest] calls at most one handler, and it returns a promise
    exactly when it called one: either it returns [undefined] and no
    handler was called, or it called a single handler with
    [{url, event, params}] and returns that call's promise, behind the
    catch handler when one is set. *)
Theorem handleRequest_calls_at_most_one_handler (event : FetchEvent) (w : World) :
  (result (handleRequest (AFetchEvent event)) w = Normal None
   /\ handle_calls (trace (exec (handleRequest (AFetchEvent event)) w))
      = handle_calls (trace w))
  \/ (exists h params,
        let ctx := RouteContext (request_url (request event)) event params in
        result (handleRequest (AFetchEvent event)) w
        = Normal (Some (attached (catchHandler (router w)) event (handle h ctx)))
        /\ (forall later, catchHandler later = catchHandler (router w) ->
              settle later
                (attached (catchHandler (router w)) event (handle h ctx))
              = guarded (catchHandler (router w)) event (handle h ctx))
        /\ handle_calls (trace (exec (handleRequest (AFetchEvent event)) w))
           = handle_calls (trace w) ++ [(h, ctx)]).
Proof.
  unfold result, exec, handleRequest.
  cbv beta iota zeta delta [mbind M_bind mret M_ret isInstance_FetchEvent].
  destruct (negb (String.prefix "http" _)).
  - left. unfold_M. simpl. split; [reflexivity|].
    rewrite handle_calls_app. apply app_nil_r.
  - rewrite findHandlerAndParams_unfold.
    destruct (loop_uniform event (bucket w (request_method (request event))))
      as (found & evs & Hcalls & Hloop).
    rewrite Hloop. unfold_M. simpl.
    match goal with
    | |- context [match ?x with Some _ => _ | None => _ end] =>
        destruct x as [h|]
    end.
    + right. exists h, (snd found).
      split; [by destruct (catchHandler (router w))|].
      split; [intros later Hl; by apply settle_attached|].
      destruct (catchHandler (router w)); simpl;
        by rewrite !handle_calls_app, Hcalls, app_nil_r.
    + left. simpl. split; [reflexivity|].
      rewrite handle_calls_app, Hcalls. apply app_nil_r.
Qed.

Lemma match_calls_in_app a b :
  match_calls_in (a ++ b) = match_calls_in a ++ match_calls_in b.
Proof. unfold match_calls_in. apply omap_app. Qed.

Lemma match_calls_in_match_calls event routes :
  match_calls_in (match_calls event routes)
  = (fun r => (r, context_of event)) <$> routes.
Proof.
  induction routes as [|r rs IH]; [reflexivity|].
  unfold match_calls in *. csimpl. unfold match_calls_in in *. simpl.
  by rewrite IH.
Qed.

(** The routes of the request's method are asked in bucket order, each
    once, up to and including the first that accepts: the routes behind
    the winner are never asked.  When none accepts, each route of the
    bucket is asked once. *)
Theorem routes_are_consulted_in_order_until_first_match
  (w : World) (event : FetchEvent) :
  is_http event ->
  (forall pre r post,
     bucket w (request_method (request event)) = pre ++ r :: post ->
     Forall (rejects event) pre ->
     matches event r ->
     match_calls_in (trace (exec (handleRequest (AFetchEvent event)) w))
     = match_calls_in (trace w)
       ++ ((fun q => (q, context_of event)) <$> (pre ++ [r])))
  /\ (Forall (rejects event) (bucket w (request_method (request event))) ->
      match_calls_in (trace (exec (handleRequest (AFetchEvent event)) w))
      = match_calls_in (trace w)
        ++ ((fun q => (q, context_of event))
              <$> bucket w (request_method (request event)))).
Proof.
  intros Hhttp. split.
  - intros pre r post Hb Hpre Hr. unfold exec.
    rewrite (handleRequest_dispatch _ _ _ _ _ Hhttp
               (Selects_route w event pre r post Hb Hpre Hr)).
    simpl. rewrite !match_calls_in_app, match_calls_in_match_calls.
    rewrite fmap_app. simpl. by rewrite app_nil_r.
  - intros Hall. unfold exec.
    destruct (defaultHandler (router w)) as [d|] eqn:Hd.
    + rewrite (handleRequest_dispatch _ _ _ _ _ Hhttp
                 (Selects_default w event d Hall Hd)).
      simpl. rewrite !match_calls_in_app, match_calls_in_match_calls.
      simpl. by rewrite app_nil_r.
    + rewrite (handleRequest_unhandled _ _ Hhttp Hall Hd). simpl.
      by rewrite match_calls_in_app, match_calls_in_match_calls.
Qed.

Lemma routes_are_consulted_in_order_until_first_match_witness :
  match_calls_in
    (trace (exec (handleRequest (AFetchEvent Sample.get_logo))
              (exec (registerRoutes
                       (ARoute <$> [Sample.flaky_route; Sample.images_route]))
                 Sample.fresh)))
  = [(Sample.images_route, context_of Sample.get_logo)].
Proof.
  refine (proj1 (routes_are_consulted_in_order_until_first_match
                   (exec (registerRoutes
                            (ARoute <$> [Sample.flaky_route; Sample.images_route]))
                      Sample.fresh)
                   Sample.get_logo _)
            [] Sample.images_route [Sample.flaky_route] _ _ _).
  - reflexivity.
  - reflexivity.
  - constructor.
  - reflexivity.
Defined.

(** A promise of the selected handler that is not rejected (fulfilled,
    or never settled) is the result as it is, with or without a catch
    handler and whatever the catch slot holds later: the catch handler
    only ever sees rejections. *)
Theorem unrejected_promise_is_returned_as_is
  (w : World) (event : FetchEvent) (h : Handler) (params : JsValue)
  (evs : list Event) :
  is_http event ->
  Selects w event h params evs ->
  (forall error,
     handle h (RouteContext (request_url (request event)) event params)
     <> Rejected error) ->
  let p := handle h (RouteContext (request_url (request event)) event params) in
  result (handleRequest (AFetchEvent event)) w
  = Normal (Some (attached (catchHandler (router w)) event p))
  /\ (forall later,
        settle later (attached (catchHandler (router w)) event p) = p).
Proof.
  intros Hhttp Hsel Hok p. split.
  - unfold result. by rewrite (handleRequest_dispatch _ _ _ _ _ Hhttp Hsel).
  - intros later. by apply settle_unrejected.
Qed.

Lemma unrejected_promise_is_returned_as_is_witness :
  result (handleRequest (AFetchEvent Sample.get_logo))
    (exec (set_catchHandler (Some Sample.errorPage)) Sample.with_images)
  = Normal (Some (Caught (Fulfilled {| status := 200; body := "cached" |})
                    Sample.logo_url Sample.get_logo))
  /\ settle new_Router
       (Caught (Fulfilled {| status := 200; body := "cached" |})
          Sample.logo_url Sample.get_logo)
     = Fulfilled {| status := 200; body := "cached" |}.
Proof.
  edestruct (unrejected_promise_is_returned_as_is
               (exec (set_catchHandler (Some Sample.errorPage)) Sample.with_images)
               Sample.get_logo Sample.cacheFirst)
    as [Hres Hsettle].
  - reflexivity.
  - exact (Selects_route
             (exec (set_catchHandler (Some Sample.errorPage)) Sample.with_images)
             Sample.get_logo [] Sample.images_route []
             eq_refl (List.Forall_nil _) eq_refl).
  - intros error. discriminate.
  - split; [exact Hres|exact (Hsettle new_Router)].
Defined.

(** ** Unregistering registered routes *)

Lemma unregisterRoute_single r w :
  unregisterRoute (ARoute r) w = unregisterRoutes_body r w.
Proof.
  unfold unregisterRoute, unregisterRoutes.
  cbv beta iota zeta delta
    [mbind M_bind mret M_ret isInstance_Route isArrayOfClass_Route all_routes
     fmap option_fmap option_map for_of].
  by destruct (unregisterRoutes_body r w) as [[[]|e] w'].
Qed.

Lemma indexOf_from_first i x pre r' post :
  Forall (fun y => ref y <> ref x) pre ->
  ref r' = ref x ->
  indexOf_from i x (pre ++ r' :: post) = (i + Z.of_nat (length pre))%Z.
Proof.
  intros Hpre Hr. revert i. induction Hpre as [|y l Hy _ IH]; intros i; simpl.
  - rewrite Hr, Nat.eqb_refl. lia.
  - destruct (Nat.eqb_spec (ref y) (ref x)); [done|]. rewrite IH. lia.
Qed.

Lemma splice_one pre (r' : Route) post :
  splice (pre ++ r' :: post) (Z.of_nat (length pre)) 1 = pre ++ post.
Proof.
  unfold splice. rewrite Nat2Z.id, take_app_length.
  change (Z.to_nat 1) with 1. by rewrite drop_app_add.
Qed.

Lemma with_routes_id w : with_routes w (_routes (router w)) = w.
Proof. by destruct w as [[? ? ?] ?]. Qed.

Lemma unregisterRoutes_body_first_occurrence w r r' pre post :
  _routes (router w) !! method r = Some (pre ++ r' :: post) ->
  Forall (fun y => ref y <> ref r) pre ->
  ref r' = ref r ->
  unregisterRoutes_body r w
  = (Normal tt, with_routes w (<[method r := pre ++ post]> (_routes (router w)))).
Proof.
  intros Hb Hpre Hr.
  assert (Hi : indexOf r (pre ++ r' :: post) = Z.of_nat (length pre)).
  { unfold indexOf. by rewrite indexOf_from_first. }
  rewrite (unregisterRoutes_body_found r w _ Hb) by lia.
  by rewrite Hi, splice_one.
Qed.

(** [unregisterRoute] takes out the first entry of the method's bucket
    that is the given route object, and nothing else: the entries around
    it keep their order, other buckets and the handler slots stay, and
    no diagnostic is reported. *)
Theorem unregisterRoute_removes_first_occurrence
  (w : World) (r r' : Route) (pre post : list Route) :
  _routes (router w) !! method r = Some (pre ++ r' :: post) ->
  Forall (fun y => ref y <> ref r) pre ->
  ref r' = ref r ->
  unregisterRoute (ARoute r) w
  = (Normal tt,
     {| router := {| _routes := <[method r := pre ++ post]> (_routes (router w));
                     defaultHandler := defaultHandler (router w);
                     catchHandler := catchHandler (router w) |};
        trace := trace w |}).
Proof.
  intros Hb Hpre Hr. rewrite unregisterRoute_single.
  exact (unregisterRoutes_body_first_occurrence w r r' pre post Hb Hpre Hr).
Qed.

Lemma unregisterRoute_removes_first_occurrence_witness :
  bucket (exec (unregisterRoute (ARoute Sample.images_route))
            (exec (registerRoutes
                     (ARoute <$> [Sample.images_route; Sample.logo_route;
                                  Sample.images_route]))
               Sample.fresh)) "GET"
  = [Sample.logo_route; Sample.images_route].
Proof.
  unfold exec at 1.
  rewrite (unregisterRoute_removes_first_occurrence
             (exec (registerRoutes
                     (ARoute <$> [Sample.images_route; Sample.logo_route;
                                  Sample.images_route]))
               Sample.fresh)
             Sample.images_route Sample.images_route
             [] [Sample.logo_route; Sample.images_route]).
  - reflexivity.
  - reflexivity.
  - constructor.
  - reflexivity.
Defined.

Lemma unregister_after_register r w :
  unregisterRoute (ARoute r) (registered [r] w)
  = (Normal tt,
     with_routes w (<[method r := bucket w (method r)]> (_routes (router w)))).
Proof.
  rewrite unregisterRoute_single.
  rewrite (unregisterRoutes_body_first_occurrence (registered [r] w) r r []
             (bucket w (method r))).
  - simpl. unfold with_routes, unshifted. simpl.
    by rewrite insert_insert_eq.
  - simpl. unfold unshifted. by rewrite lookup_insert_eq.
  - constructor.
  - reflexivity.
Qed.

Lemma bucket_insert_same w m :
  forall m', bucket (with_routes w (<[m := bucket w m]> (_routes (router w)))) m'
             = bucket w m'.
Proof.
  intros m'. unfold bucket, with_routes. simpl.
  destruct (decide (m = m')) as [<-|Hne].
  - by rewrite lookup_insert_eq.
  - by rewrite lookup_insert_ne.
Qed.

(** Registering a route and unregistering it again undoes the
    registration: the second call returns normally without a diagnostic,
    every method's bucket holds the routes it held before, and when the
    method already had a bucket the router is exactly as it was. *)
Theorem register_then_unregister_restores_buckets (w : World) (r : Route) :
  let w1 := exec (registerRoute (ARoute r)) w in
  let w2 := exec (unregisterRoute (ARoute r)) w1 in
  result (unregisterRoute (ARoute r)) w1 = Normal tt
  /\ (forall m, bucket w2 m = bucket w m)
  /\ defaultHandler (router w2) = defaultHandler (router w)
  /\ catchHandler (router w2) = catchHandler (router w)
  /\ trace w2 = trace w
  /\ (is_Some (_routes (router w) !! method r) -> w2 = w).
Proof.
  intros w1 w2. subst w1 w2. unfold result, exec.
  rewrite registerRoute_spec. cbn [fst snd].
  rewrite unregister_after_register. cbn [fst snd].
  split; [reflexivity|]. split; [apply bucket_insert_same|].
  repeat (split; [reflexivity|]).
  intros [b Hb]. unfold bucket. rewrite Hb. simpl.
  rewrite insert_id by done. apply with_routes_id.
Qed.

Lemma register_then_unregister_restores_buckets_witness :
  exec (unregisterRoute (ARoute Sample.logo_route))
    (exec (registerRoute (ARoute Sample.logo_route)) Sample.with_images)
  = Sample.with_images.
Proof.
  refine (proj2 (proj2 (proj2 (proj2 (proj2
    (register_then_unregister_restores_buckets Sample.with_images
       Sample.logo_route))))) _).
  exists [Sample.images_route]. reflexivity.
Defined.

(** When the route in front is unregistered, the route registered
    before it answers again: after registering [R1] then [R2] and
    unregistering [R2], a request that [R1] accepts goes to the handler
    of [R1]. *)
Theorem unregistering_the_latest_route_uncovers_the_previous
  (w : World) (event : FetchEvent) (R1 R2 : Route) :
  method R1 = method R2 ->
  request_method (request event) = method R1 ->
  is_http event ->
  matches event R1 ->
  let w1 := exec (registerRoutes (ARoute <$> [R1; R2])) w in
  let w2 := exec (unregisterRoute (ARoute R2)) w1 in
  let ctx := RouteContext (request_url (request event)) event
               (params_of (route_match R1 (context_of event))) in
  result (unregisterRoute (ARoute R2)) w1 = Normal tt
  /\ result (handleRequest (AFetchEvent event)) w2
     = Normal (Some (attached (catchHandler (router w)) event
                       (handle (handler R1) ctx)))
  /\ handle_calls (trace (exec (handleRequest (AFetchEvent event)) w2))
     = handle_calls (trace w) ++ [(handler R1, ctx)]
  /\ (forall later, catchHandler later = catchHandler (router w) ->
        settle later
          (attached (catchHandler (router w)) event (handle (handler R1) ctx))
        = guarded (catchHandler (router w)) event (handle (handler R1) ctx)).
Proof.
  intros Hm Hreq Hhttp H1 w1 w2 ctx. subst w1 w2.
  assert (E1 : exec (registerRoutes (ARoute <$> [R1; R2])) w
               = registered [R2] (registered [R1] w)).
  { unfold exec. by rewrite registerRoutes_spec. }
  rewrite E1. unfold result, exec.
  rewrite unregister_after_register. cbn [fst snd].
  split; [reflexivity|].
  set (w2 := with_routes _ _).
  assert (Hsel : Selects w2 event (handler R1)
                   (params_of (route_match R1 (context_of event)))
                   (match_calls event [] ++
                    [CallMatch R1 (context_of event);
                     LogInfo MsgFoundRoute (Some R1) (request event)])).
  { apply Selects_route with (post := bucket w (method R1)); [|constructor|done].
    subst w2. rewrite bucket_insert_same, Hreq.
    change (registered [R1] w)
      with (with_routes w (unshifted R1 (_routes (router w)))).
    rewrite bucket_unshifted. unfold on_method.
    by rewrite filter_cons_True. }
  split; [|split].
  - by rewrite (handleRequest_dispatch _ _ _ _ _ Hhttp Hsel).
  - pose proof (dispatch_handle_calls _ _ _ _ _ Hhttp Hsel) as Hcalls.
    unfold exec in Hcalls. exact Hcalls.
  - intros later Hl. by apply settle_attached.
Qed.

Lemma unregistering_the_latest_route_uncovers_the_previous_witness :
  result (handleRequest (AFetchEvent Sample.get_logo))
    (exec (unregisterRoute (ARoute Sample.logo_route))
       (exec (registerRoutes (ARoute <$> [Sample.images_route; Sample.logo_route]))
          Sample.fresh))
  = Normal (Some (Direct (Fulfilled {| status := 200; body := "cached" |}))).
Proof.
  refine (proj1 (proj2 (unregistering_the_latest_route_uncovers_the_previous
                          Sample.fresh Sample.get_logo Sample.images_route
                          Sample.logo_route _ _ _ _))).
  - reflexivity.
  - reflexivity.
  - reflexivity.
  - reflexivity.
Defined.

(** Unregistering the only route of a method keeps the method's key
    with an empty bucket.  So unregistering the same route once more
    returns normally and reports that the route was not registered,
    where the same call on a router that never saw the method fails. *)
Theorem unregistering_the_last_route_leaves_an_empty_bucket
  (w : World) (r : Route) :
  _routes (router w) !! method r = None ->
  let w2 := exec (unregisterRoute (ARoute r)) (exec (registerRoute (ARoute r)) w) in
  _routes (router w2) !! method r = Some []
  /\ unregisterRoute (ARoute r) w2
     = (Normal tt, extend w2 [LogError MsgNotPreviouslyRegistered r]).
Proof.
  intros Hnone w2. subst w2. unfold exec.
  rewrite registerRoute_spec. cbn [snd].
  rewrite unregister_after_register. cbn [snd].
  assert (Hb : bucket w (method r) = []) by (unfold bucket; by rewrite Hnone).
  rewrite Hb.
  assert (Hl : _routes (router (with_routes w (<[method r:=[]]> (_routes (router w)))))
               !! method r = Some []) by (simpl; apply lookup_insert_eq).
  split; [exact Hl|].
  rewrite unregisterRoute_single.
  by apply (unregisterRoutes_body_not_found r _ [] Hl).
Qed.

Lemma unregistering_the_last_route_leaves_an_empty_bucket_witness :
  _routes (router (exec (unregisterRoute (ARoute Sample.upload_route))
                     (exec (registerRoute (ARoute Sample.upload_route))
                        Sample.with_images)))
  !! "POST" = Some [].
Proof.
  refine (proj1 (unregistering_the_last_route_leaves_an_empty_bucket
                   Sample.with_images Sample.upload_route _)).
  reflexivity.
Defined.

Lemma for_of_app {A} (xs ys : list A) (body : A -> M unit) w :
  for_of (xs ++ ys) body w
  = match for_of xs body w with
    | (Normal _, w1) => for_of ys body w1
    | (Throw e, w1) => (Throw e, w1)
    end.
Proof.
  revert w. induction xs as [|x xs IH]; intros w; [reflexivity|].
  simpl. unfold mbind, M_bind.
  destruct (body x w) as [[[]|e] w']; [apply IH|reflexivity].
Qed.

(** [unregisterRoutes] is not all-or-nothing.  When a route of the
    batch has no bucket for its method, the call fails at that route and
    the routes in front of it in the batch stay unregistered; the routes
    behind it are not looked at. *)
Theorem unregisterRoutes_keeps_removals_made_before_a_failure
  (w w1 : World) (rs1 rs2 : list Route) (p : Route) :
  unregisterRoutes (ARoute <$> rs1) w = (Normal tt, w1) ->
  _routes (router w1) !! method p = None ->
  unregisterRoutes (ARoute <$> (rs1 ++ p :: rs2)) w
  = (Throw (TypeError "indexOf of undefined"),
     extend w1 [LogError (MsgNoRoutesForMethod (method p)) p]).
Proof.
  unfold unregisterRoutes, isArrayOfClass_Route.
  rewrite !all_routes_ARoute.
  cbv beta iota zeta delta [mbind M_bind mret M_ret].
  intros H1 Hp. rewrite for_of_app, H1. simpl. unfold mbind, M_bind.
  by rewrite (unregisterRoutes_body_missing_bucket p w1 Hp).
Qed.

Lemma unregisterRoutes_keeps_removals_made_before_a_failure_witness :
  bucket (exec (unregisterRoutes
                  (ARoute <$> ([Sample.images_route]
                               ++ Sample.upload_route :: [Sample.logo_route])))
            (exec (registerRoute (ARoute Sample.logo_route)) Sample.with_images))
    "GET"
  = [Sample.logo_route].
Proof.
  unfold exec at 1.
  rewrite (unregisterRoutes_keeps_removals_made_before_a_failure
             (exec (registerRoute (ARoute Sample.logo_route)) Sample.with_images)
             (exec (unregisterRoutes (ARoute <$> [Sample.images_route]))
                (exec (registerRoute (ARoute Sample.logo_route))
                   Sample.with_images))
             [Sample.images_route] [Sample.logo_route] Sample.upload_route).
  - reflexivity.
  - reflexivity.
  - reflexivity.
Defined.

(** A batch with an element that is no route is refused as a whole, by
    [registerRoutes] and by [unregisterRoutes] alike: the call fails in
    the check of its argument and the world is as before, also for the
    routes that stand in front of the offending element. *)
Theorem batch_with_a_non_route_is_refused (args : list RouteArg) (w : World) :
  (exists v, ANotRoute v ∈ args) ->
  registerRoutes args w = (Throw (TypeMismatch "routes"), w)
  /\ unregisterRoutes args w = (Throw (TypeMismatch "routes"), w).
Proof.
  intros H. apply all_routes_None in H.
  unfold registerRoutes, unregisterRoutes, isArrayOfClass_Route.
  rewrite H. split; reflexivity.
Qed.

Lemma batch_with_a_non_route_is_refused_witness :
  unregisterRoutes [ARoute Sample.images_route; ANotRoute JNull] Sample.with_images
  = (Throw (TypeMismatch "routes"), Sample.with_images).
Proof.
  refine (proj2 (batch_with_a_non_route_is_refused
                   [ARoute Sample.images_route; ANotRoute JNull]
                   Sample.with_images _)).
  exists JNull. right. left.
Defined.

#[local] Instance shrinks_refl : Reflexive shrinks.
Proof. intros w. by repeat split. Qed.

#[local] Instance shrinks_trans : Transitive shrinks.
Proof.
  intros a b c (Hd1 & Hb1 & Hh1 & Hc1) (Hd2 & Hb2 & Hh2 & Hc2).
  repeat split; try congruence.
  intros m. by transitivity (bucket b m).
Qed.

Lemma shrinks_extend w evs : shrinks w (extend w evs).
Proof. by repeat split. Qed.

Lemma splice_delete (b : list Route) i :
  (0 <= i)%Z -> splice b i 1 = delete (Z.to_nat i) b.
Proof.
  intros _. unfold splice. change (Z.to_nat 1) with 1.
  rewrite delete_take_drop. by rewrite Nat.add_1_r.
Qed.

Lemma unregisterRoutes_body_shrinks r w :
  shrinks w (unregisterRoutes_body r w).2.
Proof.
  destruct (_routes (router w) !! method r) as [b|] eqn:Hb.
  - destruct (indexOf_from_range 0 r b) as [Hi|Hi]; fold (indexOf r b) in Hi.
    + rewrite (unregisterRoutes_body_not_found r w b Hb Hi). apply shrinks_extend.
    + rewrite (unregisterRoutes_body_found r w b Hb) by lia.
      unfold shrinks, with_routes, bucket. simpl. repeat split.
      * apply dom_insert_lookup_L. eauto.
      * intros m. destruct (decide (method r = m)) as [<-|Hne].
        -- rewrite lookup_insert_eq, Hb. simpl.
           rewrite splice_delete by lia. apply sublist_delete.
        -- by rewrite lookup_insert_ne.
  - rewrite (unregisterRoutes_body_missing_bucket r w Hb). apply shrinks_extend.
Qed.

(** [unregisterRoutes] only ever takes routes out.  However the call
    ends, the router has the method keys it had, every bucket is what
    is left of the old one after removing some entries (order kept,
    nothing added), and the handler slots are untouched. *)
Theorem unregisterRoutes_only_removes (args : list RouteArg) (w : World) :
  let w' := exec (unregisterRoutes args) w in
  dom (_routes (router w')) = dom (_routes (router w))
  /\ (forall m, bucket w' m `sublist_of` bucket w m)
  /\ defaultHandler (router w') = defaultHandler (router w)
  /\ catchHandler (router w') = catchHandler (router w).
Proof.
  intros w'. subst w'. change (shrinks w (exec (unregisterRoutes args) w)).
  unfold exec, unregisterRoutes, isArrayOfClass_Route.
  destruct (all_routes args) as [rs|]; [|reflexivity].
  cbv beta iota zeta delta [mbind M_bind mret M_ret].
  clear args. revert w. induction rs as [|r rs IH]; intros w; [reflexivity|].
  simpl. unfold mbind, M_bind.
  pose proof (unregisterRoutes_body_shrinks r w) as Hr.
  destruct (unregisterRoutes_body r w) as [[[]|e] w1]; simpl in *.
  - by transitivity w1.
  - exact Hr.
Qed.

(** ** The handler slots *)

Lemma setDefaultHandler_spec {HandlerArg : Type}
  (normalizeHandler : HandlerArg -> Completion (option Handler)) a w :
  setDefaultHandler normalizeHandler a w
  = match normalizeHandler a with
    | Normal h => set_defaultHandler h w
    | Throw e => (Throw e, w)
    end.
Proof.
  unfold setDefaultHandler, lift. unfold mbind, M_bind.
  by destruct (normalizeHandler a).
Qed.

Lemma setCatchHandler_spec {HandlerArg : Type}
  (normalizeHandler : HandlerArg -> Completion (option Handler)) a w :
  setCatchHandler normalizeHandler a w
  = match normalizeHandler a with
    | Normal h => set_catchHandler h w
    | Throw e => (Throw e, w)
    end.
Proof.
  unfold setCatchHandler, lift. unfold mbind, M_bind.
  by destruct (normalizeHandler a).
Qed.

Lemma Selects_transfer w1 w2 event h params evs :
  bucket w1 (request_method (request event))
  = bucket w2 (request_method (request event)) ->
  defaultHandler (router w1) = defaultHandler (router w2) ->
  Selects w1 event h params evs -> Selects w2 event h params evs.
Proof.
  intros Hb Hd [pre r post Hbk Hpre Hr | d Hall Hdef].
  - apply Selects_route with (post := post); [by rewrite <- Hb|done|done].
  - rewrite Hb. apply Selects_default; [by rewrite <- Hb|by rewrite <- Hd].
Qed.

(** After [setDefaultHandler] stored a handler, a request that no route
    of its method accepts is answered by that handler, called with
    [undefined] as [params]; the handler set before, if any, is not
    called. *)
Theorem setDefaultHandler_answers_unmatched_requests
  {HandlerArg : Type}
  (normalizeHandler : HandlerArg -> Completion (option Handler))
  (a : HandlerArg) (d : Handler) (w : World) (event : FetchEvent) :
  normalizeHandler a = Normal (Some d) ->
  is_http event ->
  Forall (rejects event) (bucket w (request_method (request event))) ->
  let w1 := exec (setDefaultHandler normalizeHandler a) w in
  let ctx := RouteContext (request_url (request event)) event JUndefined in
  result (setDefaultHandler normalizeHandler a) w = Normal tt
  /\ result (handleRequest (AFetchEvent event)) w1
     = Normal (Some (attached (catchHandler (router w)) event (handle d ctx)))
  /\ handle_calls (trace (exec (handleRequest (AFetchEvent event)) w1))
     = handle_calls (trace w) ++ [(d, ctx)]
  /\ (forall later, catchHandler later = catchHandler (router w) ->
        settle later (attached (catchHandler (router w)) event (handle d ctx))
        = guarded (catchHandler (router w)) event (handle d ctx)).
Proof.
  intros Hn Hhttp Hall w1 ctx.
  assert (E : setDefaultHandler normalizeHandler a w
              = set_defaultHandler (Some d) w)
    by (by rewrite setDefaultHandler_spec, Hn).
  assert (Ew : w1 = (set_defaultHandler (Some d) w).2)
    by (subst w1; unfold exec; by rewrite E).
  clearbody w1. subst w1.
  split; [unfold result; by rewrite E|].
  set (w1 := (set_defaultHandler (Some d) w).2).
  assert (Hsel : Selects w1 event d JUndefined
                   (match_calls event (bucket w1 (request_method (request event)))))
    by (by apply Selects_default).
  split; [|split].
  - unfold result. by rewrite (handleRequest_dispatch _ _ _ _ _ Hhttp Hsel).
  - by rewrite (dispatch_handle_calls _ _ _ _ _ Hhttp Hsel).
  - intros later Hl. by apply settle_attached.
Qed.

Lemma setDefaultHandler_answers_unmatched_requests_witness :
  result (handleRequest (AFetchEvent Sample.get_logo))
    (exec (setDefaultHandler Sample.normalizeHandler
             (Sample.AsFunction (fun _ => Fulfilled {| status := 404; body := "not found" |})))
       Sample.with_default)
  = Normal (Some (Direct (Fulfilled {| status := 404; body := "not found" |}))).
Proof.
  refine (proj1 (proj2
    (setDefaultHandler_answers_unmatched_requests Sample.normalizeHandler
       (Sample.AsFunction (fun _ => Fulfilled {| status := 404; body := "not found" |}))
       {| handle := fun _ => Fulfilled {| status := 404; body := "not found" |} |}
       Sample.with_default Sample.get_logo _ _ _))).
  - reflexivity.
  - reflexivity.
  - constructor.
Defined.

(** After [setCatchHandler] stored a handler [c], a request whose
    selected handler's promise is rejected is recovered by [c]:
    [handleRequest] returns the promise with the recovery callback
    attached, and with the slot still holding [c] when the rejection is
    processed the result is what [c] returns for [{url, event, error}].
    Which handler is selected does not change. *)
Theorem setCatchHandler_recovers_later_failures
  {HandlerArg : Type}
  (normalizeHandler : HandlerArg -> Completion (option Handler))
  (a : HandlerArg) (c : Handler) (w : World) (event : FetchEvent)
  (h : Handler) (params : JsValue) (evs : list Event) (error : JsValue) :
  normalizeHandler a = Normal (Some c) ->
  is_http event ->
  Selects w event h params evs ->
  handle h (RouteContext (request_url (request event)) event params)
  = Rejected error ->
  let w1 := exec (setCatchHandler normalizeHandler a) w in
  let w2 := exec (handleRequest (AFetchEvent event)) w1 in
  let rp := Caught (Rejected error) (request_url (request event)) event in
  result (handleRequest (AFetchEvent event)) w1 = Normal (Some rp)
  /\ catchHandler (router w2) = Some c
  /\ settle (router w2) rp
     = handle c (CatchContext (request_url (request event)) event error)
  /\ (forall later, catchHandler later = Some c ->
        settle later rp
        = handle c (CatchContext (request_url (request event)) event error))
  /\ handle_calls (trace w2)
     = handle_calls (trace w)
       ++ [(h, RouteContext (request_url (request event)) event params)].
Proof.
  intros Hn Hhttp Hsel Hrej w1 w2 rp.
  assert (Ew : w1 = (set_catchHandler (Some c) w).2)
    by (subst w1; unfold exec; by rewrite setCatchHandler_spec, Hn).
  subst w2 rp. clearbody w1. subst w1.
  set (w1 := (set_catchHandler (Some c) w).2).
  assert (Hsel1 : Selects w1 event h params evs)
    by (by apply (Selects_transfer w w1)).
  assert (Hlater : forall later, catchHandler later = Some c ->
            settle later (Caught (Rejected error) (request_url (request event)) event)
            = handle c (CatchContext (request_url (request event)) event error)).
  { intros later Hc. simpl. unfold catch_callback. by rewrite Hc. }
  assert (Hslot : catchHandler
                    (router (exec (handleRequest (AFetchEvent event)) w1))
                  = Some c).
  { unfold exec. by rewrite (handleRequest_dispatch _ _ _ _ _ Hhttp Hsel1). }
  split; [|split; [|split; [|split]]].
  - unfold result. rewrite (handleRequest_dispatch _ _ _ _ _ Hhttp Hsel1).
    simpl. by rewrite Hrej.
  - exact Hslot.
  - by apply Hlater.
  - exact Hlater.
  - by rewrite (dispatch_handle_calls _ _ _ _ _ Hhttp Hsel1).
Qed.

Lemma setCatchHandler_recovers_later_failures_witness :
  settle
    (router (exec (handleRequest (AFetchEvent Sample.get_logo))
               (exec (setCatchHandler Sample.normalizeHandler
                        (Sample.AsObject Sample.cacheFirst))
                  Sample.with_flaky)))
    (Caught (Rejected (JString "offline")) Sample.logo_url Sample.get_logo)
  = Fulfilled {| status := 200; body := "cached" |}.
Proof.
  refine (proj1 (proj2 (proj2
    (setCatchHandler_recovers_later_failures Sample.normalizeHandler
       (Sample.AsObject Sample.cacheFirst) Sample.cacheFirst
       Sample.with_flaky Sample.get_logo Sample.offline
       (params_of (route_match Sample.flaky_route (context_of Sample.get_logo)))
       _ (JString "offline") _ _ _ _)))).
  - reflexivity.
  - reflexivity.
  - exact (Selects_route Sample.with_flaky Sample.get_logo []
             Sample.flaky_route [] eq_refl (List.Forall_nil _) eq_refl).
  - reflexivity.
Defined.

(** Setting the default handler does not disturb routing: a request
    that a route accepts is answered by that route's handler as before,
    whatever the setter stored; and when the normalisation of the
    argument fails, the setter fails with the same error and the router
    keeps the handler it had. *)
Theorem setDefaultHandler_leaves_matched_requests_alone
  {HandlerArg : Type}
  (normalizeHandler : HandlerArg -> Completion (option Handler))
  (a : HandlerArg) (w : World) (event : FetchEvent)
  (pre post : list Route) (r : Route) :
  is_http event ->
  bucket w (request_method (request event)) = pre ++ r :: post ->
  Forall (rejects event) pre ->
  matches event r ->
  let w1 := exec (setDefaultHandler normalizeHandler a) w in
  result (handleRequest (AFetchEvent event)) w1
  = result (handleRequest (AFetchEvent event)) w
  /\ handle_calls (trace (exec (handleRequest (AFetchEvent event)) w1))
     = handle_calls (trace w)
       ++ [(handler r,
            RouteContext (request_url (request event)) event
              (params_of (route_match r (context_of event))))]
  /\ (forall e, normalizeHandler a = Throw e ->
        setDefaultHandler normalizeHandler a w = (Throw e, w)).
Proof.
  intros Hhttp Hb Hpre Hr w1.
  pose proof (Selects_route w event pre r post Hb Hpre Hr) as Hsel.
  assert (Hsel1 : Selects w1 event (handler r)
                    (params_of (route_match r (context_of event)))
                    (match_calls event pre ++
                     [CallMatch r (context_of event);
                      LogInfo MsgFoundRoute (Some r) (request event)])).
  { apply Selects_route with (post := post); [|done|done].
    rewrite <- Hb. subst w1. unfold exec.
    rewrite setDefaultHandler_spec. by destruct (normalizeHandler a). }
  assert (Hc : catchHandler (router w1) = catchHandler (router w)
               /\ trace w1 = trace w).
  { subst w1. unfold exec. rewrite setDefaultHandler_spec.
    by destruct (normalizeHandler a). }
  destruct Hc as [Hc Ht].
  split; [|split].
  - unfold result.
    rewrite (handleRequest_dispatch _ _ _ _ _ Hhttp Hsel),
            (handleRequest_dispatch _ _ _ _ _ Hhttp Hsel1).
    simpl. by rewrite Hc.
  - by rewrite (dispatch_handle_calls _ _ _ _ _ Hhttp Hsel1), Ht.
  - intros e He. by rewrite setDefaultHandler_spec, He.
Qed.

Lemma setDefaultHandler_leaves_matched_requests_alone_witness :
  result (handleRequest (AFetchEvent Sample.get_logo))
    (exec (setDefaultHandler Sample.normalizeHandler
             (Sample.AsObject Sample.offline))
       Sample.with_images)
  = result (handleRequest (AFetchEvent Sample.get_logo)) Sample.with_images.
Proof.
  refine (proj1
    (setDefaultHandler_leaves_matched_requests_alone Sample.normalizeHandler
       (Sample.AsObject Sample.offline) Sample.with_images Sample.get_logo
       [] [] Sample.images_route _ _ _ _)).
  - reflexivity.
  - reflexivity.
  - constructor.
  - reflexivity.
Defined.

(** ** The fetch listener *)

(** The listener of [addFetchListener] always returns, and it answers
    an event only when the router has a handler for it.  For a URL
    that is not HTTP, or a request that no route accepts while no
    default handler is set, [respondWith] is not called, so the request
    is left to the browser; otherwise [respondWith] is called once, with
    the promise of the selected handler behind the catch handler. *)
Theorem fetch_listener_responds_only_when_handled
  (event : FetchEvent) (h : Host) :
  let w := host_world h in
  let out := addFetchListener_callback event h in
  out.1 = Normal tt
  /\ (String.prefix "http" (protocol (request_url (request event))) = false ->
      responses out.2 = responses h)
  /\ (is_http event ->
      Forall (rejects event) (bucket w (request_method (request event))) ->
      defaultHandler (router w) = None ->
      responses out.2 = responses h)
  /\ (forall hd params evs,
        is_http event ->
        Selects w event hd params evs ->
        responses out.2
        = responses h
          ++ [(event,
               attached (catchHandler (router w)) event
                 (handle hd (RouteContext (request_url (request event))
                               event params)))]).
Proof.
  intros w out. subst w out. unfold addFetchListener_callback.
  split; [|split; [|split]].
  - destruct (handleRequest_total event (host_world h)) as (res & evs & ->).
    by destruct res.
  - intros H. by rewrite (handleRequest_not_http _ _ H).
  - intros Hhttp Hall Hd. by rewrite (handleRequest_unhandled _ _ Hhttp Hall Hd).
  - intros hd params evs Hhttp Hsel.
    by rewrite (handleRequest_dispatch _ _ _ _ _ Hhttp Hsel).
Qed.

Lemma fetch_listener_responds_only_when_handled_witness :
  responses (addFetchListener_callback Sample.get_logo Sample.service_worker).2
  = [(Sample.get_logo, Direct (Fulfilled {| status := 200; body := "cached" |}))]
  /\ responses (addFetchListener_callback Sample.get_extension
                  Sample.service_worker).2
     = [].
Proof.
  split.
  - refine (proj2 (proj2 (proj2
      (fetch_listener_responds_only_when_handled Sample.get_logo
         Sample.service_worker))) Sample.cacheFirst _ _ _ _).
    + reflexivity.
    + exact (Selects_route Sample.with_images Sample.get_logo []
               Sample.images_route [] eq_refl (List.Forall_nil _) eq_refl).
  - refine (proj1 (proj2
      (fetch_listener_responds_only_when_handled Sample.get_extension
         Sample.service_worker)) _).
    reflexivity.
Defined.
